(** * joystick_button_actions.py: the event loop, as a shallow embedding

    The program reads 8-byte joystick records from a device node, keeps three
    dictionaries keyed by button / axis number, derives at most one action
    name per record and starts the script of that name when it exists.

    The model follows the main loop (source lines 94-149):
    - [unpack_IhBB] is [struct.unpack('IhBB', evbuf)];
    - [button_branch] is the block under [if type & 0x01];
    - [axis_branch] is the block under [if type & 0x02];
    - [dispatch] is the block under [if len(action_fn) > 0];
    - [loop_body] is one pass through the loop for a decoded record and
      [main_loop] runs the loop over the successive results of
      [jsdev.read(8)].

    Python integers are unbounded, so times and durations are in [Z];
    Python floats are IEEE binary64, so normalised axis values are the
    kernel's primitive floats.  The lines printed to stderr in verbose mode
    are diagnostics only: they change neither the dictionaries nor
    [action_fn], and are not part of the model. *)

From Stdlib Require Import ZArith Lia Bool.
From Stdlib Require Import Strings.String Strings.Byte.
From Stdlib Require Import Numbers.DecimalString Numbers.DecimalZ.
From Stdlib Require Import Numbers.DecimalFacts.
From Stdlib Require Import Floats.PrimFloat.
From stdpp Require Import base option list gmap strings.

Local Open Scope Z_scope.

(** ** Python values *)

(** [str(n)] for a Python integer. *)
Definition str (n : Z) : string := NilZero.string_of_int (Z.to_int n).

(** Conversion of an integer to a float, as Python performs it when an
    [int] meets a [float] in an arithmetic operation.  The conversion is by
    binary digits, every step of which is exact below 2^53; the integers of
    the program are 8-bit and 16-bit fields. *)
Fixpoint float_of_pos (p : positive) : float :=
  match p with
  | xH => 1%float
  | xO q => PrimFloat.mul 2%float (float_of_pos q)
  | xI q => PrimFloat.add (PrimFloat.mul 2%float (float_of_pos q)) 1%float
  end.

Definition float_of_int (z : Z) : float :=
  match z with
  | Z0 => 0%float
  | Zpos p => float_of_pos p
  | Zneg p => PrimFloat.opp (float_of_pos p)
  end.

(** ** Module-level settings (source lines 26-27) *)

(** [axe_thresh_val = 0.8]; the literal denotes the binary64 number nearest
    to 0.8, written here in hexadecimal. *)
Definition axe_thresh_val : float := 0x1.999999999999ap-1%float.

(** [max_duration = 1000], in milliseconds. *)
Definition max_duration : Z := 1000.

(** ** Records of the device stream *)

(** The four values [time, value, type, number] bound at source line 103. *)
Record event : Type := Event {
  time : Z;     (* 'I': unsigned 32-bit *)
  value : Z;    (* 'h': signed 16-bit *)
  type : Z;     (* 'B': unsigned 8-bit *)
  number : Z    (* 'B': unsigned 8-bit *)
}.

(** The ranges [struct.unpack] guarantees for the four fields. *)
Definition wf_event (e : event) : Prop :=
  (0 <= time e < 2 ^ 32) /\ (- 2 ^ 15 <= value e < 2 ^ 15) /\
  (0 <= type e < 2 ^ 8) /\ (0 <= number e < 2 ^ 8).

Module Struct.

Definition byte_val (b : byte) : Z := Z.of_N (Byte.to_N b).

Definition byte_of_Z (z : Z) : byte :=
  match Byte.of_N (Z.to_N (z mod 256)) with
  | Some b => b
  | None => Byte.x00
  end.

(** An unsigned little-endian integer. *)
Fixpoint le_uint (bs : list byte) : Z :=
  match bs with
  | [] => 0
  | b :: rest => byte_val b + 256 * le_uint rest
  end.

(** The two's-complement reading of a 16-bit pattern. *)
Definition to_int16 (u : Z) : Z := if u <? 2 ^ 15 then u else u - 2 ^ 16.

(** [struct.unpack('IhBB', evbuf)]: native alignment puts the fields at
    offsets 0, 4, 6 and 7, and the byte order is that of the little-endian
    machines the joystick driver runs on.  [None] stands for
    [struct.error], raised when the buffer is not 8 bytes long. *)
Definition unpack_IhBB (evbuf : list byte) : option event :=
  match evbuf with
  | [b0; b1; b2; b3; b4; b5; b6; b7] =>
      Some {| time := le_uint [b0; b1; b2; b3];
              value := to_int16 (le_uint [b4; b5]);
              type := byte_val b6;
              number := byte_val b7 |}
  | _ => None
  end.

(** The [n] low bytes of [z], least significant first. *)
Fixpoint le_bytes (n : nat) (z : Z) : list byte :=
  match n with
  | O => []
  | S k => byte_of_Z z :: le_bytes k (z / 256)
  end.

(** Modelled from the spec: the program only decodes; the encoder of the
    round trip is [struct.pack('IhBB', time, value, type, number)] with the
    layout of section 4.1 (4-byte unsigned timestamp, 2-byte signed value,
    1-byte kind, 1-byte index, little-endian).  [None] stands for
    [struct.error], raised when a field is out of the range of its
    format. *)
Definition pack_IhBB (e : event) : option (list byte) :=
  if (0 <=? time e) && (time e <? 2 ^ 32) &&
     (- 2 ^ 15 <=? value e) && (value e <? 2 ^ 15) &&
     (0 <=? type e) && (type e <? 2 ^ 8) &&
     (0 <=? number e) && (number e <? 2 ^ 8)
  then Some (le_bytes 4 (time e) ++ le_bytes 2 (value e mod 2 ^ 16) ++
             [byte_of_Z (type e); byte_of_Z (number e)])
  else None.

End Struct.

(** ** The three dictionaries (source lines 94-96) *)

Record tracker : Type := Tracker {
  button_press_time : gmap Z Z;
  axes_prev_time : gmap Z Z;
  axes_prev_value : gmap Z float
}.

Definition tracker_init : tracker :=
  {| button_press_time := ∅; axes_prev_time := ∅; axes_prev_value := ∅ |}.

(** ** One record *)

(** [duration = time - button_press_time[button]] (line 117) and
    [duration = time - axes_prev_time[axis]] (line 128): a subtraction of
    Python integers. *)
Definition duration (now prev : Z) : Z := now - prev.

(** [type & mask], as a condition. *)
Definition bit_set (ty mask : Z) : bool := negb (Z.land ty mask =? 0).

(** Lines 110-122.  [action_fn] is the name found so far (the loop resets it
    to the empty string at line 104). *)
Definition button_branch (st : tracker) (e : event) (action_fn : string)
  : tracker * string :=
  if bit_set (type e) 0x01 then
    let button := number e in
    if negb (value e =? 0) then
      ({| button_press_time := <[button := time e]> (button_press_time st);
          axes_prev_time := axes_prev_time st;
          axes_prev_value := axes_prev_value st |}, action_fn)
    else
      match button_press_time st !! button with
      | Some pressed =>
          if duration (time e) pressed <? max_duration
          then (st, "on_button_" +:+ str button +:+ "_pressed")
          else (st, action_fn)
      | None => (st, action_fn)
      end
  else (st, action_fn).

(** Line 126: [fvalue = axis / 32767.0]. *)
Definition fvalue (axis : Z) : float :=
  PrimFloat.div (float_of_int axis) 32767%float.

(** Lines 127-135: the name the axis branch leaves in [action_fn]. *)
Definition axis_action (st : tracker) (e : event) (action_fn : string) : string :=
  let axis := number e in
  match axes_prev_time st !! axis, axes_prev_value st !! axis with
  | Some prev_time, Some prev_value =>
      if PrimFloat.eqb (fvalue axis) 0%float
         && (duration (time e) prev_time <? max_duration)
      then
        if PrimFloat.ltb prev_value (PrimFloat.opp axe_thresh_val)
        then "on_axis_" +:+ str axis +:+ "_negative"
        else if PrimFloat.ltb axe_thresh_val prev_value
        then "on_axis_" +:+ str axis +:+ "_positive"
        else action_fn
      else action_fn
  | _, _ => action_fn
  end.

(** Lines 124-142. *)
Definition axis_branch (st : tracker) (e : event) (action_fn : string)
  : tracker * string :=
  if bit_set (type e) 0x02 then
    let axis := number e in
    ({| button_press_time := button_press_time st;
        axes_prev_time := <[axis := time e]> (axes_prev_time st);
        axes_prev_value := <[axis := fvalue axis]> (axes_prev_value st) |},
     axis_action st e action_fn)
  else (st, action_fn).

(** Lines 104-142: the dictionaries and [action_fn] after the record.  For a
    record with bit 0x80 the loop [continue]s at line 108, with [action_fn]
    just reset. *)
Definition track (st : tracker) (e : event) : tracker * string :=
  if bit_set (type e) 0x80 then (st, "")
  else
    let '(st1, a1) := button_branch st e "" in
    axis_branch st1 e a1.

(** ** Dispatch and the loop *)

(** What a pass through the loop does to the outside world.  [Popen] is the
    call [subprocess.Popen([script_file], shell=True)] of line 147: the
    string is handed to the shell as its command and the call is not waited
    for.  [Raise] is [OSError] raised by [Path(script_file).is_file()] at
    line 146, which nothing in the program catches. *)
Inductive effect : Type :=
  | Popen (script_file : string)
  | Raise (script_file : string).

(** Whether a pass ended in an uncaught exception. *)
Definition raises (fx : list effect) : bool :=
  existsb (fun x => match x with Raise _ => true | Popen _ => false end) fx.

(** Whether some pass of a trace ended in an uncaught exception. *)
Definition crashed (tr : list (string * list effect)) : bool :=
  existsb (fun out => raises out.2) tr.

Section Loop.

(** The script directory (source lines 64-67), and the file system as
    [Path(script_file).is_file()] sees it: [Some b] when the call returns
    [b], [None] when it raises [OSError].  (pathlib returns [False] when
    [stat] fails with ENOENT, ENOTDIR, EBADF or ELOOP and re-raises every
    other failure, such as EACCES or ENAMETOOLONG.) *)
Variable scriptdir : string.
Variable is_file : string -> option bool.

(** Lines 144-149. *)
Definition dispatch (action_fn : string) : list effect :=
  if (0 <? String.length action_fn)%nat then
    let script_file := scriptdir +:+ "/" +:+ action_fn in
    match is_file script_file with
    | Some true => [Popen script_file]
    | Some false => []
    | None => [Raise script_file]
    end
  else [].

(** Lines 103-149 for one decoded record: the new dictionaries, the final
    [action_fn] and what the dispatch did. *)
Definition loop_body (st : tracker) (e : event)
  : tracker * string * list effect :=
  if bit_set (type e) 0x80 then (st, "", [])        (* continue *)
  else
    let '(st1, a1) := button_branch st e "" in
    let '(st2, a2) := axis_branch st1 e a1 in
    (st2, a2, dispatch a2).

(** The loop over a sequence of decoded records, with one entry of the
    trace per record processed.  A pass that raises is the last one. *)
Fixpoint run (st : tracker) (es : list event)
  : tracker * list (string * list effect) :=
  match es with
  | [] => (st, [])
  | e :: rest =>
      let '(st1, a, fx) := loop_body st e in
      if raises fx then (st1, [(a, fx)])
      else
        let '(st2, tr) := run st1 rest in
        (st2, (a, fx) :: tr)
  end.

(** How a run over finitely many reads ends: the reads are used up (the
    real loop then blocks in [read]), [struct.unpack] raised at line 103,
    or [is_file] raised at line 146. *)
Inductive ending : Type :=
  | Blocked
  | StructError
  | OSError.

(** Lines 100-149 over the successive results of [jsdev.read(8)].  An
    empty result fails the test [if evbuf:] and the loop reads again; an
    exception ends the loop. *)
Fixpoint main_loop (st : tracker) (reads : list (list byte))
  : tracker * list (string * list effect) * ending :=
  match reads with
  | [] => (st, [], Blocked)
  | evbuf :: rest =>
      match evbuf with
      | [] => main_loop st rest
      | _ :: _ =>
          match Struct.unpack_IhBB evbuf with
          | None => (st, [], StructError)
          | Some e =>
              let '(st1, a, fx) := loop_body st e in
              if raises fx then (st1, [(a, fx)], OSError)
              else
                let '(st2, tr, fin) := main_loop st1 rest in
                (st2, (a, fx) :: tr, fin)
          end
      end
  end.

End Loop.

(** The action names of a run over decoded records, without the dispatch. *)
Fixpoint actions (st : tracker) (es : list event) : list string :=
  match es with
  | [] => []
  | e :: rest => (track st e).2 :: actions (track st e).1 rest
  end.

(** The dictionaries after a run over decoded records. *)
Definition final (st : tracker) (es : list event) : tracker :=
  fold_left (fun s e => (track s e).1) es st.

(** ** Predicates used in the statements *)

(** A stored axis value is quiet when neither comparison of lines 130 and
    133 succeeds on it. *)
Definition quiet (v : float) : bool :=
  negb (PrimFloat.ltb v (PrimFloat.opp axe_thresh_val))
  && negb (PrimFloat.ltb axe_thresh_val v).

(** Every value stored in [axes_prev_value] is quiet. *)
Definition axes_quiet (st : tracker) : Prop :=
  map_Forall (fun _ v => quiet v = true) (axes_prev_value st).

Definition uint8_values : list Z := Z.of_nat <$> seq 0 256.

(** The dictionaries the loop can have after finitely many reads, started
    as at lines 94-96. *)
Definition reachable (st : tracker) : Prop :=
  exists (scriptdir : string) (is_file : string -> option bool)
         (reads : list (list byte)),
    (main_loop scriptdir is_file tracker_init reads).1.1 = st.

(** The names the axis branch can assign at lines 131 and 134. *)
Definition axis_action_name (a : string) : Prop :=
  exists n : Z, a = "on_axis_" +:+ str n +:+ "_negative"
             \/ a = "on_axis_" +:+ str n +:+ "_positive".

(** The state of one button as the dictionary holds it: [Idle] when the
    button has no entry, [Active] with the time of the recorded press. *)
Inductive button_state : Type :=
  | Idle
  | Active (pressed : Z).

Definition button_state_of (st : tracker) (button : Z) : button_state :=
  match button_press_time st !! button with
  | Some pressed => Active pressed
  | None => Idle
  end.

(** Two records that agree on time, kind and number. *)
Definition same_but_value (e1 e2 : event) : Prop :=
  time e1 = time e2 /\ type e1 = type e2 /\ number e1 = number e2.

(** Two records that are equal, or differ only in the value field and carry
    the axis bit 0x02. *)
Definition axis_value_variant (e1 e2 : event) : Prop :=
  same_but_value e1 e2 /\
  (value e1 = value e2 \/ Z.land (type e1) 0x02 <> 0).

(** The same, where the record that differs carries the axis bit and not
    the button bit 0x01. *)
Definition pure_axis_value_variant (e1 e2 : event) : Prop :=
  same_but_value e1 e2 /\
  (value e1 = value e2 \/
   (Z.land (type e1) 0x02 <> 0 /\ Z.land (type e1) 0x01 = 0)).

(** ** Start-up (source lines 24-67) *)

Module Startup.

(** The settings the start-up code leaves behind for the loop. *)
Record settings : Type := Settings {
  verbose_output : bool;
  print_device_info : bool;
  dev_fn : string;
  scriptdir : string
}.

(** How the start-up ends: the usage text is printed and the program exits
    (line 49), [os.listdir('/dev/input')] raised (line 57), or the program
    goes on to open the device with the settings found. *)
Inductive outcome : Type :=
  | Usage
  | ListdirError
  | Start (s : settings).

(** Lines 33-49: [None] when the usage is printed, otherwise the verbose
    flag and [argshift]. *)
Definition flags (argv : list string) : option (bool * nat) :=
  match argv !! 1%nat with
  | Some a =>
      if String.eqb a "-v" || String.eqb a "--verbose" then Some (true, 1%nat)
      else if String.eqb a "-h" || String.eqb a "--help" then None
      else Some (false, 0%nat)
  | None => Some (false, 0%nat)
  end.

(** Lines 57-62: the loop over the names in [/dev/input], with [dev_fn]
    empty before it. *)
Definition first_js (listing : list string) : string :=
  fold_left
    (fun dev inpname =>
       if String.prefix "js" inpname then
         if (String.length dev <=? 0)%nat then "/dev/input/" +:+ inpname
         else dev
       else dev)
    listing "".

(** Lines 33-67.  [listing] is the result of [os.listdir('/dev/input')],
    [None] when it raises; [home] is [str(Path.home())]. *)
Definition startup (argv : list string) (listing : option (list string))
    (home : string) : outcome :=
  match flags argv with
  | None => Usage
  | Some (verbose, argshift) =>
      let device :=
        match argv !! (1 + argshift)%nat with
        | Some d => Some d
        | None => first_js <$> listing
        end in
      match device with
      | None => ListdirError
      | Some d =>
          Start {| verbose_output := verbose;
                   print_device_info := verbose;
                   dev_fn := d;
                   scriptdir := match argv !! (2 + argshift)%nat with
                                | Some dir => dir
                                | None => home
                                end |}
      end
  end.

(** The settings with the two verbose flags set. *)
Definition set_verbose (o : outcome) : outcome :=
  match o with
  | Start s => Start {| verbose_output := true;
                        print_device_info := true;
                        dev_fn := dev_fn s;
                        scriptdir := scriptdir s |}
  | _ => o
  end.

(** The four options of lines 34 and 38. *)
Definition is_flag (a : string) : bool :=
  String.eqb a "-v" || String.eqb a "--verbose"
  || String.eqb a "-h" || String.eqb a "--help".

End Startup.

(** ** Invariants of the dictionaries *)

(** Keys are 8-bit numbers, stored times are unsigned 32-bit, the two axis
    dictionaries have the same keys, and the value stored for an axis is the
    one line 126 computes from its number. *)
Record tracker_inv (st : tracker) : Prop := TrackerInv {
  inv_buttons : forall k t, button_press_time st !! k = Some t ->
                  0 <= k < 2 ^ 8 /\ 0 <= t < 2 ^ 32;
  inv_axes_time : forall k t, axes_prev_time st !! k = Some t ->
                  0 <= k < 2 ^ 8 /\ 0 <= t < 2 ^ 32;
  inv_axes_keys : dom (axes_prev_time st) = dom (axes_prev_value st);
  inv_axes_value : forall k v, axes_prev_value st !! k = Some v -> v = fvalue k
}.

(** One dictionary state extends another when no key has been lost. *)
Definition keys_kept (st st' : tracker) : Prop :=
  dom (button_press_time st) ⊆ dom (button_press_time st') /\
  dom (axes_prev_time st) ⊆ dom (axes_prev_time st') /\
  dom (axes_prev_value st) ⊆ dom (axes_prev_value st').

(** The name of the script of a button (line 119). *)
Definition button_script (button : Z) : string :=
  "on_button_" +:+ str button +:+ "_pressed".

(** A read that delivers something: the test [if evbuf:] of line 102. *)
Definition delivers (evbuf : list byte) : bool :=
  match evbuf with
  | [] => false
  | _ :: _ => true
  end.

(** * Properties *)

(** Quietness of concrete dictionaries is decided by evaluation. *)
Ltac decide_quiet :=
  unfold axes_quiet; apply (bool_decide_unpack _); vm_compute; exact I.

(** ** The record layout *)

Module StructFacts.
Import Struct.

Lemma byte_val_range (b : byte) : 0 <= byte_val b < 256.
Proof.
  unfold byte_val. pose proof (Byte.to_N_bounded b). lia.
Qed.

Lemma byte_of_val (b : byte) : byte_of_Z (byte_val b) = b.
Proof.
  unfold byte_of_Z. rewrite Z.mod_small by apply byte_val_range.
  unfold byte_val. rewrite N2Z.id, Byte.of_to_N. reflexivity.
Qed.

Lemma byte_of_cons (b : byte) (r : Z) : byte_of_Z (byte_val b + 256 * r) = b.
Proof.
  pose proof (byte_val_range b) as Hb.
  assert ((byte_val b + 256 * r) mod 256 = byte_val b mod 256) as E
    by (Z.div_mod_to_equations; lia).
  rewrite <- (byte_of_val b) at 2. unfold byte_of_Z. by rewrite E.
Qed.

Lemma div_cons (b : byte) (r : Z) : (byte_val b + 256 * r) / 256 = r.
Proof.
  pose proof (byte_val_range b). Z.div_mod_to_equations; lia.
Qed.

Lemma le_uint_range (bs : list byte) :
  0 <= le_uint bs < 256 ^ Z.of_nat (length bs).
Proof.
  induction bs as [|b bs IH]; simpl le_uint; [simpl; lia|].
  pose proof (byte_val_range b).
  rewrite length_cons, Nat2Z.inj_succ, Z.pow_succ_r by lia. lia.
Qed.

Lemma le_bytes_le_uint (bs : list byte) :
  le_bytes (length bs) (le_uint bs) = bs.
Proof.
  induction bs as [|b bs IH]; simpl; [done|].
  rewrite byte_of_cons, div_cons, IH. done.
Qed.

Lemma to_int16_range (u : Z) :
  0 <= u < 2 ^ 16 -> - 2 ^ 15 <= to_int16 u < 2 ^ 15.
Proof. unfold to_int16. intros Hu. destruct (Z.ltb_spec u (2 ^ 15)); lia. Qed.

Lemma to_int16_mod (u : Z) : 0 <= u < 2 ^ 16 -> to_int16 u mod 2 ^ 16 = u.
Proof.
  unfold to_int16. intros Hu. destruct (Z.ltb_spec u (2 ^ 15)).
  - apply Z.mod_small; lia.
  - replace (u - 2 ^ 16) with (u + (-1) * 2 ^ 16) by lia.
    rewrite Z.mod_add by lia. apply Z.mod_small; lia.
Qed.

(** What [struct.unpack] returns lies in the ranges of its format. *)
Lemma unpack_wf (evbuf : list byte) (e : event) :
  unpack_IhBB evbuf = Some e -> wf_event e.
Proof.
  destruct evbuf as [|b0 [|b1 [|b2 [|b3 [|b4 [|b5 [|b6 [|b7 [|? ?]]]]]]]]];
    try discriminate.
  intros [= <-]. unfold wf_event; cbn [time value type number].
  pose proof (le_uint_range [b0; b1; b2; b3]) as Ht.
  pose proof (le_uint_range [b4; b5]) as Hv.
  pose proof (byte_val_range b6). pose proof (byte_val_range b7).
  pose proof (to_int16_range (le_uint [b4; b5])) as Hs.
  cbn [length] in Ht, Hv.
  change (256 ^ Z.of_nat 4) with (2 ^ 32) in Ht.
  change (256 ^ Z.of_nat 2) with (2 ^ 16) in Hv.
  change (2 ^ 8) with 256. specialize (Hs Hv).
  cbn [le_uint] in *. lia.
Qed.

Lemma unpack_length (evbuf : list byte) :
  is_Some (unpack_IhBB evbuf) <-> length evbuf = 8%nat.
Proof.
  destruct evbuf as [|b0 [|b1 [|b2 [|b3 [|b4 [|b5 [|b6 [|b7 [|? ?]]]]]]]]];
    cbn; split; intros H; try discriminate; try done;
    by destruct H.
Qed.

Lemma pack_wf (e : event) : wf_event e -> is_Some (pack_IhBB e).
Proof.
  unfold wf_event, pack_IhBB. intros (Ht & Hv & Hk & Hn).
  repeat match goal with
  | |- context [?a <=? ?b] =>
      destruct (Z.leb_spec a b); [|lia]
  | |- context [?a <? ?b] =>
      destruct (Z.ltb_spec a b); [|lia]
  end.
  cbn. eauto.
Qed.

End StructFacts.

(** C8. Decoding any 8 bytes with [struct.unpack('IhBB', ...)] (4-byte
    unsigned timestamp, 2-byte signed value, 1-byte kind, 1-byte index)
    succeeds, and encoding the four fields again with the same layout gives
    back the same 8 bytes, byte for byte. *)
Theorem unpack_pack_roundtrip (b0 b1 b2 b3 b4 b5 b6 b7 : byte) :
  Struct.unpack_IhBB [b0; b1; b2; b3; b4; b5; b6; b7] ≫= Struct.pack_IhBB
  = Some [b0; b1; b2; b3; b4; b5; b6; b7].
Proof.
  pose proof (StructFacts.unpack_wf [b0; b1; b2; b3; b4; b5; b6; b7] _ eq_refl)
    as (Ht & Hv & Hk & Hn).
  cbn [Struct.unpack_IhBB mbind option_bind]. unfold Struct.pack_IhBB.
  repeat match goal with
  | |- context [?a <=? ?b] => destruct (Z.leb_spec a b); [|lia]
  | |- context [?a <? ?b] => destruct (Z.ltb_spec a b); [|lia]
  end.
  cbn [andb time value type number]. f_equal.
  rewrite StructFacts.to_int16_mod.
  2:{ pose proof (StructFacts.le_uint_range [b4; b5]) as Hu.
      cbn [length] in Hu. change (256 ^ Z.of_nat 2) with (2 ^ 16) in Hu. lia. }
  cbn [Struct.le_bytes Struct.le_uint app].
  rewrite !StructFacts.div_cons, !StructFacts.byte_of_cons.
  rewrite !StructFacts.byte_of_val. reflexivity.
Qed.

(** ** The two branches *)

Lemma fvalue_quiet_all : forallb (fun n => quiet (fvalue n)) uint8_values = true.
Proof. vm_compute. reflexivity. Qed.

Lemma fvalue_zero_all :
  forallb (fun n => Bool.eqb (PrimFloat.eqb (fvalue n) 0%float) (n =? 0))
          uint8_values = true.
Proof. vm_compute. reflexivity. Qed.

Lemma uint8_values_spec (n : Z) : 0 <= n < 2 ^ 8 -> In n uint8_values.
Proof.
  intros Hn. unfold uint8_values. apply in_map_iff.
  exists (Z.to_nat n). split; [lia|]. apply in_seq.
  change (2 ^ 8) with 256 in Hn. lia.
Qed.

(** What line 126 computes from an 8-bit number never passes the threshold. *)
Lemma fvalue_quiet (n : Z) : 0 <= n < 2 ^ 8 -> quiet (fvalue n) = true.
Proof.
  intros Hn. pose proof fvalue_quiet_all as H.
  rewrite forallb_forall in H. apply H, uint8_values_spec, Hn.
Qed.

(** [fvalue == 0] at line 129 holds exactly for number 0. *)
Lemma fvalue_zero (n : Z) :
  0 <= n < 2 ^ 8 -> PrimFloat.eqb (fvalue n) 0%float = (n =? 0).
Proof.
  intros Hn. pose proof fvalue_zero_all as H.
  rewrite forallb_forall in H. apply Bool.eqb_prop, H, uint8_values_spec, Hn.
Qed.

Lemma axes_quiet_init : axes_quiet tracker_init.
Proof. apply map_Forall_empty. Qed.

Lemma bit_set_true (ty mask : Z) : bit_set ty mask = true <-> Z.land ty mask <> 0.
Proof. unfold bit_set. destruct (Z.eqb_spec (Z.land ty mask) 0); simpl; split; congruence. Qed.

Lemma bit_set_false (ty mask : Z) : bit_set ty mask = false <-> Z.land ty mask = 0.
Proof. unfold bit_set. destruct (Z.eqb_spec (Z.land ty mask) 0); simpl; split; congruence. Qed.

(** On quiet dictionaries the axis branch leaves [action_fn] as it found it. *)
Lemma axis_action_quiet (st : tracker) (e : event) (action_fn : string) :
  axes_quiet st -> axis_action st e action_fn = action_fn.
Proof.
  intros Hq. unfold axis_action.
  destruct (axes_prev_time st !! number e) as [t0|]; [|done].
  destruct (axes_prev_value st !! number e) as [v0|] eqn:Hv; [|done].
  apply (map_Forall_lookup_1 _ _ _ _ Hq) in Hv. unfold quiet in Hv.
  apply andb_true_iff in Hv as [H1 H2].
  apply negb_true_iff in H1, H2. rewrite H1, H2.
  by destruct (_ && _).
Qed.

(** Without recorded state for the axis, too. *)
Lemma axis_action_fresh (st : tracker) (e : event) (action_fn : string) :
  axes_prev_time st !! number e = None \/ axes_prev_value st !! number e = None ->
  axis_action st e action_fn = action_fn.
Proof.
  unfold axis_action. intros [-> | ->]; [done|].
  by destruct (axes_prev_time st !! number e).
Qed.

Lemma button_branch_axes (st : tracker) (e : event) (a : string) :
  axes_prev_time (button_branch st e a).1 = axes_prev_time st /\
  axes_prev_value (button_branch st e a).1 = axes_prev_value st.
Proof.
  unfold button_branch.
  destruct (bit_set (type e) 1); [|done].
  destruct (negb (value e =? 0)); [done|].
  destruct (button_press_time st !! number e); [|done].
  by destruct (_ <? _).
Qed.

Lemma axis_branch_buttons (st : tracker) (e : event) (a : string) :
  button_press_time (axis_branch st e a).1 = button_press_time st.
Proof. unfold axis_branch. by destruct (bit_set (type e) 2). Qed.

Lemma button_branch_quiet (st : tracker) (e : event) (a : string) :
  axes_quiet st -> axes_quiet (button_branch st e a).1.
Proof.
  unfold axes_quiet. by rewrite (proj2 (button_branch_axes st e a)).
Qed.

Lemma axis_branch_quiet (st : tracker) (e : event) (a : string) :
  0 <= number e < 2 ^ 8 -> axes_quiet st -> axes_quiet (axis_branch st e a).1.
Proof.
  intros Hn Hq. unfold axis_branch.
  destruct (bit_set (type e) 2); [|done].
  unfold axes_quiet; cbn [fst axes_prev_value].
  apply map_Forall_insert_2; [by apply fvalue_quiet | done].
Qed.

(** [track] in terms of the two branches. *)
Lemma track_unfold (st : tracker) (e : event) :
  track st e =
  if bit_set (type e) 0x80 then (st, "")
  else axis_branch (button_branch st e "").1 e (button_branch st e "").2.
Proof. unfold track. destruct (bit_set _ _); [done|]. by destruct (button_branch _ _ _). Qed.

(** The dictionaries stay quiet along every record with an 8-bit number. *)
Lemma track_quiet (st : tracker) (e : event) :
  0 <= number e < 2 ^ 8 -> axes_quiet st -> axes_quiet (track st e).1.
Proof.
  intros Hn Hq. rewrite track_unfold.
  destruct (bit_set (type e) 128); [done|].
  by apply axis_branch_quiet, button_branch_quiet.
Qed.

(** On quiet dictionaries the action of a record is the one its button
    branch found. *)
Lemma track_action (st : tracker) (e : event) :
  axes_quiet st ->
  (track st e).2 =
  if bit_set (type e) 0x80 then "" else (button_branch st e "").2.
Proof.
  intros Hq. rewrite track_unfold.
  destruct (bit_set (type e) 128); [done|].
  unfold axis_branch. destruct (bit_set (type e) 2); [|done].
  cbn [snd]. by apply axis_action_quiet, button_branch_quiet.
Qed.

Section LoopFacts.

Variable scriptdir : string.
Variable is_file : string -> option bool.

(** One pass of the loop is [track] followed by the dispatch of its
    action. *)
Lemma loop_body_track (st : tracker) (e : event) :
  loop_body scriptdir is_file st e =
  (track st e, dispatch scriptdir is_file (track st e).2).
Proof.
  unfold loop_body, track.
  destruct (bit_set (type e) 128); [done|].
  destruct (button_branch st e "") as [st1 a1].
  by destruct (axis_branch st1 e a1) as [st2 a2].
Qed.

End LoopFacts.

(** ** Records with bit 0x80 *)

(** C3. A record whose kind byte has bit 0x80 set, whatever its other kind
    bits, timestamp, value and index, leaves the three dictionaries as they
    were, produces no action name and starts no process. *)
Theorem init_event_ignored (scriptdir : string) (is_file : string -> option bool)
    (st : tracker) (e : event) :
  Z.land (type e) 0x80 <> 0 ->
  loop_body scriptdir is_file st e = (st, "", []).
Proof.
  intros Hinit. apply bit_set_true in Hinit.
  unfold loop_body. by rewrite Hinit.
Qed.

Lemma init_event_ignored_witness :
  let st := (track tracker_init (Event 40 1 0x01 3)).1 in
  Z.land 0x83 0x80 <> 0 /\
  loop_body "/home/pi" (fun _ => Some true) st (Event 50 0 0x83 3) = (st, "", []).
Proof.
  intros st. split.
  - vm_compute. discriminate.
  - apply (init_event_ignored "/home/pi" (fun _ => Some true) st (Event 50 0 0x83 3)).
    vm_compute. discriminate.
Defined.

(** ** Dispatch *)

Lemma nonempty_length (a : string) : a <> "" -> (0 <? String.length a)%nat = true.
Proof. destruct a; [done|]. intros _. reflexivity. Qed.

(** C7, as stated, fails: [is_file] can raise, and then the pass neither
    starts the script nor ends without error.  With button 0 pressed and a
    script directory on which [stat] fails (say a directory that may not be
    searched, or an over-long path), the release yields the action
    [on_button_0_pressed], no process is started and the pass raises
    [OSError]; the loop ends there and the record that follows is never
    processed. *)
Lemma is_file_error_is_fatal :
  let press := [x00; x00; x00; x00; x01; x00; x01; x00]%byte in
  let release := [x0a; x00; x00; x00; x00; x00; x01; x00]%byte in
  let fs := fun _ : string => @None bool in
  let st := (track tracker_init (Event 0 1 0x01 0)).1 in
  loop_body "/home/pi" fs st (Event 10 0 0x01 0)
    = (st, "on_button_0_pressed", [Raise "/home/pi/on_button_0_pressed"]) /\
  main_loop "/home/pi" fs tracker_init [press; release; press]
    = (st, [("", []);
            ("on_button_0_pressed", [Raise "/home/pi/on_button_0_pressed"])],
       OSError).
Proof. split; vm_compute; reflexivity. Qed.

(** C7, amended. When a record yields a non-empty action name, the outcome
    of [Path(script_file).is_file()] for [scriptdir/action_fn] decides the
    pass: if it returns [True] (a regular file exists there) exactly one
    call of [Popen] is made, for that script, and it is not waited for; if
    it returns [False] (nothing at that path, or not a regular file) no
    process is started and no error is raised; if it raises [OSError] no
    process is started and the pass ends in that uncaught error. *)
Theorem dispatch_gating (scriptdir : string) (is_file : string -> option bool)
    (st st' : tracker) (e : event) (action_fn : string) (fx : list effect) :
  loop_body scriptdir is_file st e = (st', action_fn, fx) ->
  action_fn <> "" ->
  (is_file (scriptdir +:+ "/" +:+ action_fn) = Some true ->
     fx = [Popen (scriptdir +:+ "/" +:+ action_fn)]) /\
  (is_file (scriptdir +:+ "/" +:+ action_fn) = Some false ->
     fx = [] /\ raises fx = false) /\
  (is_file (scriptdir +:+ "/" +:+ action_fn) = None ->
     fx = [Raise (scriptdir +:+ "/" +:+ action_fn)] /\ raises fx = true).
Proof.
  rewrite loop_body_track. intros [= Htrack <-] Hne.
  rewrite Htrack. cbn [snd]. unfold dispatch.
  rewrite (nonempty_length _ Hne).
  split; [|split]; intros ->; [done | by split | by split].
Qed.

Lemma dispatch_gating_witness :
  let st := (track tracker_init (Event 0 1 0x01 0)).1 in
  let e := Event 10 0 0x01 0 in
  let fs := fun p => Some (String.eqb p "/home/pi/on_button_0_pressed") in
  (loop_body "/home/pi" fs st e
     = (st, "on_button_0_pressed", [Popen "/home/pi/on_button_0_pressed"]) /\
   loop_body "/tmp" fs st e = (st, "on_button_0_pressed", []) /\
   "on_button_0_pressed" <> "") /\
  [Popen "/home/pi/on_button_0_pressed"]
    = [Popen ("/home/pi" +:+ "/" +:+ "on_button_0_pressed")] /\
  (@nil effect = [] /\ raises (@nil effect) = false).
Proof.
  intros st e fs.
  assert (loop_body "/home/pi" fs st e
          = (st, "on_button_0_pressed",
             [Popen "/home/pi/on_button_0_pressed"])) as Hyes
    by (vm_compute; reflexivity).
  assert (loop_body "/tmp" fs st e = (st, "on_button_0_pressed", [])) as Hno
    by (vm_compute; reflexivity).
  assert ("on_button_0_pressed" <> "") as Hne by discriminate.
  split; [done|]. split.
  - apply (dispatch_gating "/home/pi" fs st st e "on_button_0_pressed"
             [Popen "/home/pi/on_button_0_pressed"] Hyes Hne).
    vm_compute. reflexivity.
  - apply (dispatch_gating "/tmp" fs st st e "on_button_0_pressed" []
             Hno Hne).
    vm_compute. reflexivity.
Defined.

(** ** The button branch *)

Lemma button_name_nonempty (n : Z) : "on_button_" +:+ str n +:+ "_pressed" <> "".
Proof. discriminate. Qed.

(** The button branch on a release (value 0) of a button with a recorded
    press. *)
Lemma button_branch_release (st : tracker) (e : event) (pressed : Z) :
  Z.land (type e) 0x01 <> 0 -> value e = 0 ->
  button_press_time st !! number e = Some pressed ->
  button_branch st e "" =
  (st, if time e - pressed <? max_duration
       then "on_button_" +:+ str (number e) +:+ "_pressed" else "").
Proof.
  intros Hb Hv Hp. apply bit_set_true in Hb.
  unfold button_branch, duration. rewrite Hb, Hv, Hp. cbn [Z.eqb negb].
  by destruct (_ <? _).
Qed.

(** The action of a release record for a button with a recorded press, on
    quiet dictionaries. *)
Lemma track_release (st : tracker) (e : event) (pressed : Z) :
  axes_quiet st ->
  Z.land (type e) 0x01 <> 0 -> Z.land (type e) 0x80 = 0 ->
  value e = 0 ->
  button_press_time st !! number e = Some pressed ->
  (track st e).2 =
  if time e - pressed <? max_duration
  then "on_button_" +:+ str (number e) +:+ "_pressed" else "".
Proof.
  intros Hq Hb Hi Hv Hp. apply bit_set_false in Hi.
  rewrite (track_action _ _ Hq), Hi.
  by rewrite (button_branch_release _ _ _ Hb Hv Hp).
Qed.

Lemma track_release_iff (st : tracker) (e : event) (pressed : Z) :
  axes_quiet st ->
  Z.land (type e) 0x01 <> 0 -> Z.land (type e) 0x80 = 0 ->
  value e = 0 ->
  button_press_time st !! number e = Some pressed ->
  (track st e).2 = "on_button_" +:+ str (number e) +:+ "_pressed"
    <-> time e - pressed < max_duration.
Proof.
  intros Hq Hb Hi Hv Hp. rewrite (track_release _ _ _ Hq Hb Hi Hv Hp).
  destruct (Z.ltb_spec (time e - pressed) max_duration) as [Hlt|Hge].
  - tauto.
  - split; [|lia].
    intros Heq. symmetry in Heq. by apply button_name_nonempty in Heq.
Qed.

(** C2. On a button record (bit 0x01 set, bit 0x80 clear) with value 0 for a
    button whose press time is recorded, the action
    [on_button_<number>_pressed] is produced if and only if the duration,
    the record's time minus the recorded press time, is strictly less than
    1000 ms, the value of [max_duration]; otherwise no action is produced.
    The dictionaries are any the loop can have reached ([axes_quiet]).  In
    particular (the witness) a press of button 3 at t = 0 followed by a
    release at t = 999 yields [on_button_3_pressed], and a release at
    t = 1000 yields no action. *)
Theorem button_release_action (st : tracker) (e : event) (pressed : Z) :
  axes_quiet st ->
  Z.land (type e) 0x01 <> 0 -> Z.land (type e) 0x80 = 0 ->
  value e = 0 ->
  button_press_time st !! number e = Some pressed ->
  max_duration = 1000 /\
  ((track st e).2 = "on_button_" +:+ str (number e) +:+ "_pressed"
     <-> time e - pressed < 1000) /\
  (1000 <= time e - pressed -> (track st e).2 = "").
Proof.
  intros Hq Hb Hi Hv Hp. split; [reflexivity|]. split.
  - by apply track_release_iff.
  - intros Hge. rewrite (track_release _ _ _ Hq Hb Hi Hv Hp).
    destruct (Z.ltb_spec (time e - pressed) max_duration) as [Hlt|];
      [unfold max_duration in Hlt; lia | done].
Qed.

Lemma button_release_action_witness :
  let st := (track tracker_init (Event 0 1 0x01 3)).1 in
  (axes_quiet st /\ Z.land 0x01 0x01 <> 0 /\ Z.land 0x01 0x80 = 0 /\
   button_press_time st !! 3 = Some 0) /\
  (track st (Event 999 0 0x01 3)).2 = "on_button_3_pressed" /\
  (track st (Event 1000 0 0x01 3)).2 = "".
Proof.
  intros st.
  assert (axes_quiet st) as Hq by decide_quiet.
  assert (Z.land 0x01 0x01 <> 0) as Hb by (vm_compute; discriminate).
  assert (Z.land 0x01 0x80 = 0) as Hi by reflexivity.
  assert (button_press_time st !! 3 = Some 0) as Hp by (vm_compute; reflexivity).
  split; [done|]. split.
  - destruct (button_release_action st (Event 999 0 0x01 3) 0 Hq Hb Hi
                eq_refl Hp) as (_ & Hiff & _).
    change ((track st (Event 999 0 0x01 3)).2
            = "on_button_" +:+ str 3 +:+ "_pressed").
    apply Hiff. cbn [time]. lia.
  - destruct (button_release_action st (Event 1000 0 0x01 3) 0 Hq Hb Hi
                eq_refl Hp) as (_ & _ & Hlong).
    apply Hlong. cbn [time]. lia.
Defined.

(** ** The axis branch never names an action *)

Lemma button_branch_cases (st : tracker) (e : event) :
  (button_branch st e "").2 = "" \/
  (button_branch st e "").2 = "on_button_" +:+ str (number e) +:+ "_pressed".
Proof.
  unfold button_branch.
  destruct (bit_set (type e) 1); [|by left].
  destruct (negb (value e =? 0)); [by left|].
  destruct (button_press_time st !! number e); [|by left].
  destruct (_ <? _); [by right | by left].
Qed.

Lemma button_name_not_axis (n : Z) :
  ~ axis_action_name ("on_button_" +:+ str n +:+ "_pressed").
Proof. intros [m [H | H]]; discriminate H. Qed.

Lemma empty_not_axis : ~ axis_action_name "".
Proof. intros [m [H | H]]; discriminate H. Qed.

Lemma track_not_axis (st : tracker) (e : event) :
  axes_quiet st -> ~ axis_action_name (track st e).2.
Proof.
  intros Hq. rewrite (track_action _ _ Hq).
  destruct (bit_set (type e) 128); [apply empty_not_axis|].
  destruct (button_branch_cases st e) as [-> | ->];
    [apply empty_not_axis | apply button_name_not_axis].
Qed.

Section Runs.

Variable scriptdir : string.
Variable is_file : string -> option bool.

(** A run in which no pass raised has gone through every record: its
    dictionaries and action names are those of the tracking alone. *)
Lemma run_ok (st : tracker) (es : list event) :
  crashed (run scriptdir is_file st es).2 = false ->
  (run scriptdir is_file st es).1 = final st es /\
  (run scriptdir is_file st es).2.*1 = actions st es.
Proof.
  revert st. induction es as [|e es IH]; intros st; [done|].
  unfold final. cbn [run actions fold_left]. rewrite loop_body_track.
  fold (final (track st e).1 es). specialize (IH (track st e).1).
  destruct (track st e) as [st1 a]. cbn [fst snd] in IH |- *.
  destruct (raises (dispatch scriptdir is_file a)) eqn:Hr.
  - cbn [snd crashed existsb]. by rewrite Hr.
  - destruct (run scriptdir is_file st1 es) as [st2 tr].
    cbn [fst snd crashed existsb fmap list_fmap] in *. rewrite Hr.
    cbn [orb]. intros Hc. destruct (IH Hc) as [-> ->]. done.
Qed.

Lemma run_final (st : tracker) (es : list event) :
  crashed (run scriptdir is_file st es).2 = false ->
  (run scriptdir is_file st es).1 = final st es.
Proof. intros Hc. by apply run_ok. Qed.

(** When every read delivers a full record, the loop over the reads is the
    loop over the decoded records. *)
Lemma main_loop_run (st : tracker) (reads : list (list byte)) (es : list event) :
  Forall2 (fun evbuf e => Struct.unpack_IhBB evbuf = Some e) reads es ->
  main_loop scriptdir is_file st reads
  = (run scriptdir is_file st es,
     if crashed (run scriptdir is_file st es).2 then OSError else Blocked).
Proof.
  intros H. revert st. induction H as [|evbuf e reads es Hd _ IH]; intros st; [done|].
  cbn [main_loop run]. rewrite Hd.
  destruct evbuf as [|b evbuf]; [discriminate|].
  destruct (loop_body scriptdir is_file st e) as [[st1 a] fx].
  destruct (raises fx) eqn:Hr.
  - cbn [snd crashed existsb]. by rewrite Hr.
  - rewrite IH. destruct (run scriptdir is_file st1 es) as [st2 tr].
    cbn [snd crashed existsb]. by rewrite Hr.
Qed.

(** Along the loop the stored axis values stay quiet and no record gets an
    axis name. *)
Lemma main_loop_silent (reads : list (list byte)) (st : tracker) :
  axes_quiet st ->
  Forall (fun out => ~ axis_action_name out.1
                     /\ out.2 = dispatch scriptdir is_file out.1)
         (main_loop scriptdir is_file st reads).1.2 /\
  axes_quiet (main_loop scriptdir is_file st reads).1.1.
Proof.
  revert st. induction reads as [|evbuf reads IH]; intros st Hq; [by split|].
  cbn [main_loop]. destruct evbuf as [|b evbuf]; [by apply IH|].
  destruct (Struct.unpack_IhBB (b :: evbuf)) as [e|] eqn:Hd; [|by split].
  apply StructFacts.unpack_wf in Hd as (_ & _ & _ & Hn).
  rewrite loop_body_track.
  pose proof (track_not_axis st e Hq) as Ha.
  pose proof (track_quiet st e Hn Hq) as Hq1.
  destruct (track st e) as [st1 a]. cbn [fst snd] in Ha, Hq1 |- *.
  destruct (raises (dispatch scriptdir is_file a)).
  { cbn [fst snd]. split; [|done]. by repeat constructor. }
  destruct (IH st1 Hq1) as [IH1 IH2].
  destruct (main_loop scriptdir is_file st1 reads) as [[st2 tr] fin].
  cbn [fst snd] in *. split; [|done]. by constructor.
Qed.

End Runs.

(** C9. Whatever the device delivers, no pass through the loop produces an
    action named [on_axis_<n>_negative] or [on_axis_<n>_positive], for any
    [n], and the processes a pass starts are those of its action: the value
    stored as the previous normalised value of an axis is computed from the
    axis number, an 8-bit field, and never passes the threshold 0.8 in
    either direction. *)
Theorem no_axis_action (scriptdir : string) (is_file : string -> option bool)
    (reads : list (list byte)) :
  Forall (fun out => ~ axis_action_name out.1
                     /\ out.2 = dispatch scriptdir is_file out.1)
         (main_loop scriptdir is_file tracker_init reads).1.2 /\
  axes_quiet (main_loop scriptdir is_file tracker_init reads).1.1.
Proof. apply main_loop_silent, axes_quiet_init. Qed.

(** Every state of the dictionaries that the loop can reach is quiet. *)
Lemma reachable_quiet (st : tracker) : reachable st -> axes_quiet st.
Proof.
  intros (scriptdir & is_file & reads & <-).
  apply main_loop_silent, axes_quiet_init.
Qed.

Lemma final_quiet (es : list event) (st : tracker) :
  Forall wf_event es -> axes_quiet st -> axes_quiet (final st es).
Proof.
  intros Hwf. revert st.
  induction Hwf as [|e es (_ & _ & _ & Hn) _ IH]; intros st Hq; [done|].
  unfold final. cbn [fold_left]. by apply IH, track_quiet.
Qed.

(** ** The axis branch on the snap-back sequence *)

(** C1. The claim reads the normalised value of an axis record as
    [value / 32767.0]; line 126 computes it from the axis number.  On the
    sequence (axis 1, value -30000, t = 0), (axis 1, value 0, t = 500) the
    loop produces no action: the value stored after the first record is
    [1 / 32767.0], which is quiet, although [-30000 / 32767.0] is below
    [-0.8]; and the second record is not seen as a return to zero, because
    [1 / 32767.0] is not zero. *)
Theorem axis_snapback_no_action :
  actions tracker_init [Event 0 (-30000) 0x02 1; Event 500 0 0x02 1] = [""; ""] /\
  axes_prev_value (final tracker_init [Event 0 (-30000) 0x02 1]) !! 1
    = Some (fvalue 1) /\
  quiet (fvalue 1) = true /\
  PrimFloat.eqb (fvalue 1) 0%float = false /\
  PrimFloat.ltb (PrimFloat.div (float_of_int (-30000)) 32767%float)
                (PrimFloat.opp axe_thresh_val) = true.
Proof. repeat split; vm_compute; reflexivity. Qed.

(** ** Durations *)

(** C4. The claim asks for the modular difference of the two 32-bit times;
    lines 117 and 128 subtract them as Python integers.  Button 3 is pressed
    100 ms before the device clock wraps (t = 4294967196) and released
    2000 ms after the wrap (t = 2000): it was held for 2100 ms, which is
    what the modular difference gives, and more than [max_duration].  The
    code computes the duration -4294965196, finds it below [max_duration]
    and produces [on_button_3_pressed], against the claim and against the
    program's own usage text (lines 45-47: no script when the button was
    pressed more than [max_duration] ms). *)
Theorem wrapped_long_press_emits :
  duration 2000 4294967196 = -4294965196 /\
  (2000 - 4294967196) mod 2 ^ 32 = 2100 /\
  (2100 <? max_duration) = false /\
  actions tracker_init [Event 4294967196 1 0x01 3; Event 2000 0 0x01 3]
    = [""; "on_button_3_pressed"].
Proof. repeat split; vm_compute; reflexivity. Qed.

(** The time test of the axis branch, for an axis with recorded state. *)
Lemma axis_action_recorded (st : tracker) (e : event) (a : string)
    (prev_time : Z) (prev_value : float) :
  axes_prev_time st !! number e = Some prev_time ->
  axes_prev_value st !! number e = Some prev_value ->
  axis_action st e a =
  if PrimFloat.eqb (fvalue (number e)) 0%float
     && (time e - prev_time <? max_duration)
  then
    if PrimFloat.ltb prev_value (PrimFloat.opp axe_thresh_val)
    then "on_axis_" +:+ str (number e) +:+ "_negative"
    else if PrimFloat.ltb axe_thresh_val prev_value
    then "on_axis_" +:+ str (number e) +:+ "_positive"
    else a
  else a.
Proof. intros Ht Hv. unfold axis_action, duration. by rewrite Ht, Hv. Qed.

(** The extent of the defect.  For a stored time [t1] and a record time
    [t2], both unsigned 32-bit, the duration of lines 117 and 128 is the
    integer difference [t2 - t1], in the button branch and in the axis
    branch alike.  It agrees with the modular difference
    [(t2 - t1) mod 2^32] exactly when [t1 <= t2]; whenever the clock has
    wrapped between the two records ([t2 < t1]) it is the modular
    difference minus 2^32, a negative number, and a button release passes
    the test [duration < max_duration] however long the button was held. *)
Theorem duration_plain_difference (st : tracker) (e : event) (t1 : Z) :
  0 <= t1 < 2 ^ 32 -> 0 <= time e < 2 ^ 32 ->
  (duration (time e) t1 = (time e - t1) mod 2 ^ 32 <-> t1 <= time e) /\
  (time e < t1 ->
     duration (time e) t1 = (time e - t1) mod 2 ^ 32 - 2 ^ 32 /\
     duration (time e) t1 < max_duration) /\
  (Z.land (type e) 0x01 <> 0 -> value e = 0 ->
   button_press_time st !! number e = Some t1 ->
   (button_branch st e "").2 =
     (if time e - t1 <? max_duration
      then "on_button_" +:+ str (number e) +:+ "_pressed" else "") /\
   (time e < t1 ->
    (button_branch st e "").2
      = "on_button_" +:+ str (number e) +:+ "_pressed")) /\
  (forall (prev_value : float) (a : string),
   axes_prev_time st !! number e = Some t1 ->
   axes_prev_value st !! number e = Some prev_value ->
   axis_action st e a =
     if PrimFloat.eqb (fvalue (number e)) 0%float
        && (time e - t1 <? max_duration)
     then
       if PrimFloat.ltb prev_value (PrimFloat.opp axe_thresh_val)
       then "on_axis_" +:+ str (number e) +:+ "_negative"
       else if PrimFloat.ltb axe_thresh_val prev_value
       then "on_axis_" +:+ str (number e) +:+ "_positive"
       else a
     else a).
Proof.
  intros H1 H2.
  assert (time e < t1 -> (time e - t1) mod 2 ^ 32 = time e - t1 + 2 ^ 32)
    as Hwrap.
  { intros Hlt. symmetry. apply (Z.mod_unique_pos _ _ (-1)); lia. }
  unfold duration. split; [|split; [|split]].
  - split.
    + intros Heq. destruct (Z.lt_ge_cases (time e) t1) as [Hlt|]; [|done].
      rewrite (Hwrap Hlt) in Heq. lia.
    + intros Hle. symmetry. apply Z.mod_small. lia.
  - intros Hlt. rewrite (Hwrap Hlt). unfold max_duration. lia.
  - intros Hb Hv Hp.
    rewrite (button_branch_release _ _ _ Hb Hv Hp). cbn [snd].
    split; [done|]. intros Hlt. unfold max_duration.
    destruct (Z.ltb_spec (time e - t1) 1000); [done | lia].
  - intros prev_value a. apply axis_action_recorded.
Qed.

Lemma duration_plain_difference_witness :
  let st := (track tracker_init (Event 5000 1 0x01 3)).1 in
  let e := Event 0 0 0x01 3 in
  (0 <= 5000 < 2 ^ 32 /\ 0 <= 0 < 2 ^ 32) /\
  duration 0 5000 = (0 - 5000) mod 2 ^ 32 - 2 ^ 32 /\
  duration 0 5000 < max_duration /\
  (button_branch st e "").2 = "on_button_" +:+ str 3 +:+ "_pressed".
Proof.
  intros st e.
  assert (0 <= 5000 < 2 ^ 32) as H1 by lia.
  assert (0 <= time e < 2 ^ 32) as H2 by (cbn; lia).
  split; [done|].
  destruct (duration_plain_difference st e 5000 H1 H2)
    as (_ & Hwrap & Hbutton & _).
  assert (time e < 5000) as Hlt by (cbn; lia).
  destruct (Hwrap Hlt) as [Hd Hm].
  split; [exact Hd|]. split; [exact Hm|].
  apply Hbutton; [vm_compute; discriminate | reflexivity
                 | vm_compute; reflexivity | exact Hlt].
Defined.

(** ** The per-button state machine *)

Lemma button_branch_press (st : tracker) (e : event) (a : string) :
  Z.land (type e) 0x01 <> 0 -> value e <> 0 ->
  button_branch st e a =
  ({| button_press_time := <[number e := time e]> (button_press_time st);
      axes_prev_time := axes_prev_time st;
      axes_prev_value := axes_prev_value st |}, a).
Proof.
  intros Hb Hv. apply bit_set_true in Hb. apply Z.eqb_neq in Hv.
  unfold button_branch. by rewrite Hb, Hv.
Qed.

Lemma button_branch_release_state (st : tracker) (e : event) (a : string) :
  value e = 0 -> (button_branch st e a).1 = st.
Proof.
  intros Hv. unfold button_branch. rewrite Hv. cbn [Z.eqb negb].
  destruct (bit_set (type e) 1); [|done].
  destruct (button_press_time st !! number e); [|done].
  by destruct (_ <? _).
Qed.

(** The name the button branch finds depends on the press times only. *)
Lemma button_branch_action_ext (st1 st2 : tracker) (e : event) (a : string) :
  button_press_time st1 = button_press_time st2 ->
  (button_branch st1 e a).2 = (button_branch st2 e a).2.
Proof.
  intros Heq. unfold button_branch. rewrite Heq.
  destruct (bit_set (type e) 1); [|done].
  destruct (negb (value e =? 0)); [done|].
  destruct (button_press_time st2 !! number e); [|done].
  by destruct (_ <? _).
Qed.

Lemma track_buttons (st : tracker) (e : event) :
  button_press_time (track st e).1 =
  if bit_set (type e) 0x80 then button_press_time st
  else button_press_time (button_branch st e "").1.
Proof.
  rewrite track_unfold. destruct (bit_set (type e) 128); [done|].
  apply axis_branch_buttons.
Qed.

(** C5, as stated, fails: after a press of button 3 at t = 0, the releases
    at t = 100 and t = 200, with no press in between, both produce the
    action, and the press time is still recorded after the first release. *)
Lemma double_release_two_actions :
  actions tracker_init
    [Event 0 1 0x01 3; Event 100 0 0x01 3; Event 200 0 0x01 3]
    = [""; "on_button_3_pressed"; "on_button_3_pressed"] /\
  button_state_of (final tracker_init [Event 0 1 0x01 3; Event 100 0 0x01 3]) 3
    = Active 0.
Proof. split; vm_compute; reflexivity. Qed.

(** C5, amended. For every button record (bit 0x01 set, bit 0x80 clear): a
    press makes the button [Active] with the time of the press and produces
    no action; a release, within or beyond the budget, leaves every
    button's state as it was (the press record is kept, not cleared); a
    release while [Idle] produces no action; and a release while
    [Active pressed] produces the action exactly when its time minus
    [pressed] is below [max_duration].  Consequently the action of any later
    record is the same whether or not the release took place: a second
    release with no press in between produces an action again when it is
    within the budget of the recorded press. *)
Theorem button_state_machine (st : tracker) (e : event) :
  axes_quiet st -> 0 <= number e < 2 ^ 8 ->
  Z.land (type e) 0x01 <> 0 -> Z.land (type e) 0x80 = 0 ->
  (value e <> 0 ->
     button_state_of (track st e).1 (number e) = Active (time e) /\
     (track st e).2 = "") /\
  (value e = 0 ->
     (forall b, button_state_of (track st e).1 b = button_state_of st b) /\
     (button_state_of st (number e) = Idle -> (track st e).2 = "") /\
     (forall pressed, button_state_of st (number e) = Active pressed ->
        ((track st e).2 = "on_button_" +:+ str (number e) +:+ "_pressed"
           <-> time e - pressed < max_duration)) /\
     (forall e2, (track (track st e).1 e2).2 = (track st e2).2)).
Proof.
  intros Hq Hn Hb Hi.
  pose proof (track_buttons st e) as Hbt.
  pose proof (track_action st e Hq) as Ha.
  pose proof (track_quiet st e Hn Hq) as Hq1.
  apply bit_set_false in Hi. rewrite Hi in Hbt, Ha.
  split; intros Hv.
  - rewrite (button_branch_press _ _ _ Hb Hv) in Hbt, Ha. cbn [fst snd] in Hbt, Ha.
    split; [|done]. unfold button_state_of.
    cbn [button_press_time] in Hbt. by rewrite Hbt, lookup_insert_eq.
  - rewrite (button_branch_release_state _ _ _ Hv) in Hbt.
    split; [|split; [|split]].
    + intros b. unfold button_state_of. by rewrite Hbt.
    + unfold button_state_of. intros Hidle. rewrite Ha.
      apply bit_set_true in Hb. unfold button_branch.
      rewrite Hb, Hv. cbn [Z.eqb negb].
      by destruct (button_press_time st !! number e).
    + intros pressed Hact. unfold button_state_of in Hact.
      destruct (button_press_time st !! number e) as [p|] eqn:Hp; [|done].
      injection Hact as ->.
      apply (track_release_iff st e pressed Hq Hb); try done.
      by apply bit_set_false.
    + intros e2. rewrite (track_action _ _ Hq1), (track_action _ _ Hq).
      destruct (bit_set (type e2) 128); [done|].
      by apply button_branch_action_ext.
Qed.

Lemma button_state_machine_witness :
  let st := (track tracker_init (Event 0 1 0x01 3)).1 in
  let e := Event 100 0 0x01 3 in
  (axes_quiet st /\ 0 <= 3 < 2 ^ 8 /\
   Z.land 0x01 0x01 <> 0 /\ Z.land 0x01 0x80 = 0) /\
  button_state_of (track st e).1 3 = button_state_of st 3 /\
  ((track st e).2 = "on_button_" +:+ str 3 +:+ "_pressed"
     <-> 100 - 0 < max_duration) /\
  (track (track st e).1 (Event 200 0 0x01 3)).2
    = (track st (Event 200 0 0x01 3)).2.
Proof.
  intros st e.
  assert (axes_quiet st) as Hq by decide_quiet.
  assert (0 <= 3 < 2 ^ 8) as Hn by lia.
  assert (Z.land 0x01 0x01 <> 0) as Hb by (vm_compute; discriminate).
  assert (Z.land 0x01 0x80 = 0) as Hi by reflexivity.
  split; [done|].
  destruct (button_state_machine st e Hq Hn Hb Hi) as [_ Hrelease].
  destruct (Hrelease eq_refl) as (Hkeep & _ & Hact & Hlater).
  split; [apply Hkeep|]. split; [|apply Hlater].
  apply Hact. vm_compute. reflexivity.
Defined.

(** ** First records *)

Lemma track_axes (st : tracker) (e : event) :
  axes_prev_time (track st e).1 =
    (if bit_set (type e) 0x80 then axes_prev_time st
     else if bit_set (type e) 0x02
          then <[number e := time e]> (axes_prev_time st)
          else axes_prev_time st) /\
  axes_prev_value (track st e).1 =
    (if bit_set (type e) 0x80 then axes_prev_value st
     else if bit_set (type e) 0x02
          then <[number e := fvalue (number e)]> (axes_prev_value st)
          else axes_prev_value st).
Proof.
  rewrite track_unfold. destruct (bit_set (type e) 128); [done|].
  destruct (button_branch_axes st e "") as [Ht Hv].
  unfold axis_branch. destruct (bit_set (type e) 2); cbn [fst]; [|done].
  cbn [axes_prev_time axes_prev_value]. by rewrite Ht, Hv.
Qed.

(** The name a record ends with is the one the axis branch computes from
    the dictionaries as they were before the record. *)
Lemma track_classifies_first (st : tracker) (e : event) :
  Z.land (type e) 0x80 = 0 -> Z.land (type e) 0x02 <> 0 ->
  (track st e).2 = axis_action st e (button_branch st e "").2.
Proof.
  intros Hi Ha. apply bit_set_false in Hi. apply bit_set_true in Ha.
  rewrite track_unfold, Hi. unfold axis_branch. rewrite Ha. cbn [snd].
  destruct (button_branch_axes st e "") as [Ht Hv].
  unfold axis_action. by rewrite Ht, Hv.
Qed.

(** C6, as stated, fails: with button 5 pressed at t = 0 and nothing
    recorded for axis 5, the record (t = 10, value 0, kind 0x03, number 5)
    carries the axis bit, yet it produces [on_button_5_pressed], the action
    of its button branch. *)
Lemma axis_event_with_button_action :
  let st := (track tracker_init (Event 0 1 0x01 5)).1 in
  axes_prev_time st !! 5 = None /\ axes_prev_value st !! 5 = None /\
  Z.land 0x03 0x02 = 2 /\ Z.land 0x03 0x80 = 0 /\
  (track st (Event 10 0 0x03 5)).2 = "on_button_5_pressed".
Proof. repeat split; vm_compute; reflexivity. Qed.

(** C6, amended. For a record with bit 0x80 clear: a release of a button
    never pressed before produces no action (on dictionaries the loop can
    have reached); on an axis record (bit 0x02 set) for an axis with no
    prior recorded state the axis branch names no action, so the record ends
    with the action of its button branch, which is none when bit 0x01 is
    clear; and every axis record, whether or not a prior state existed, is
    classified against the dictionaries as they were before it and then
    records its time (and a normalised value) for its number. *)
Theorem first_event_baseline (st : tracker) (e : event) :
  Z.land (type e) 0x80 = 0 ->
  (axes_quiet st -> Z.land (type e) 0x01 <> 0 -> value e = 0 ->
   button_press_time st !! number e = None -> (track st e).2 = "") /\
  (Z.land (type e) 0x02 <> 0 ->
   axes_prev_time st !! number e = None \/
   axes_prev_value st !! number e = None ->
   (track st e).2 = (button_branch st e "").2 /\
   (Z.land (type e) 0x01 = 0 -> (track st e).2 = "")) /\
  (Z.land (type e) 0x02 <> 0 ->
   (track st e).2 = axis_action st e (button_branch st e "").2 /\
   axes_prev_time (track st e).1 !! number e = Some (time e) /\
   is_Some (axes_prev_value (track st e).1 !! number e)).
Proof.
  intros Hi. pose proof Hi as Hi'. apply bit_set_false in Hi'.
  split; [|split].
  - intros Hq Hb Hv Hp. rewrite (track_action st e Hq), Hi'.
    apply bit_set_true in Hb.
    unfold button_branch. by rewrite Hb, Hv, Hp.
  - intros Ha Hfresh.
    rewrite (track_classifies_first _ _ Hi Ha), (axis_action_fresh _ _ _ Hfresh).
    split; [done|]. intros Hb. apply bit_set_false in Hb.
    unfold button_branch. by rewrite Hb.
  - intros Ha. split; [by apply track_classifies_first|].
    destruct (track_axes st e) as [Ht Hv]. apply bit_set_true in Ha.
    rewrite Hi', Ha in Ht, Hv. rewrite Ht, Hv, !lookup_insert_eq. eauto.
Qed.

Lemma first_event_baseline_witness :
  let e := Event 0 0 0x02 1 in
  Z.land 0x02 0x80 = 0 /\
  (track tracker_init e).2 = "" /\
  axes_prev_time (track tracker_init e).1 !! 1 = Some 0 /\
  is_Some (axes_prev_value (track tracker_init e).1 !! 1).
Proof.
  intros e. split; [reflexivity|].
  destruct (first_event_baseline tracker_init e eq_refl)
    as (_ & Hfresh & Hstore).
  assert (Z.land (type e) 0x02 <> 0) as Ha by (vm_compute; discriminate).
  split; [|by apply Hstore].
  apply (Hfresh Ha); [by left | reflexivity].
Defined.

(** ** The value field of axis records *)

Lemma event_eq (e1 e2 : event) :
  same_but_value e1 e2 -> value e1 = value e2 -> e1 = e2.
Proof.
  destruct e1, e2. unfold same_but_value. cbn. intros (-> & -> & ->) ->. done.
Qed.

(** The axis branch does not read the value field. *)
Lemma axis_branch_value_blind (st : tracker) (e1 e2 : event) (a : string) :
  same_but_value e1 e2 -> axis_branch st e1 a = axis_branch st e2 a.
Proof.
  intros (Ht & Hk & Hn). unfold axis_branch, axis_action.
  by rewrite Ht, Hk, Hn.
Qed.

Lemma track_axes_variant (st1 st2 : tracker) (e1 e2 : event) :
  same_but_value e1 e2 ->
  axes_prev_time st1 = axes_prev_time st2 ->
  axes_prev_value st1 = axes_prev_value st2 ->
  axes_prev_time (track st1 e1).1 = axes_prev_time (track st2 e2).1 /\
  axes_prev_value (track st1 e1).1 = axes_prev_value (track st2 e2).1.
Proof.
  intros (Ht & Hk & Hn) Ht12 Hv12.
  destruct (track_axes st1 e1) as [-> ->].
  destruct (track_axes st2 e2) as [-> ->].
  by rewrite Ht, Hk, Hn, Ht12, Hv12.
Qed.

Lemma final_axes_variant (es1 es2 : list event) :
  Forall2 axis_value_variant es1 es2 ->
  forall st1 st2 : tracker,
  axes_prev_time st1 = axes_prev_time st2 ->
  axes_prev_value st1 = axes_prev_value st2 ->
  axes_prev_time (final st1 es1) = axes_prev_time (final st2 es2) /\
  axes_prev_value (final st1 es1) = axes_prev_value (final st2 es2).
Proof.
  induction 1 as [|e1 e2 es1 es2 [Hsame _] _ IH]; intros st1 st2 Ht Hv; [done|].
  unfold final. cbn [fold_left].
  destruct (track_axes_variant st1 st2 e1 e2 Hsame Ht Hv) as [Ht' Hv'].
  by apply IH.
Qed.

Lemma track_pure_variant (st : tracker) (e1 e2 : event) :
  pure_axis_value_variant e1 e2 -> track st e1 = track st e2.
Proof.
  intros [Hsame [Hv | [_ Hb]]]; [by rewrite (event_eq e1 e2)|].
  pose proof Hsame as (_ & Hk & _).
  rewrite !track_unfold, <- Hk.
  destruct (bit_set (type e1) 128); [done|].
  apply bit_set_false in Hb.
  unfold button_branch. rewrite <- Hk, Hb. cbn [fst snd].
  by apply axis_branch_value_blind.
Qed.

Section ValueBlind.

Variable scriptdir : string.
Variable is_file : string -> option bool.

Lemma run_pure_variant (es1 es2 : list event) :
  Forall2 pure_axis_value_variant es1 es2 ->
  forall st : tracker,
  run scriptdir is_file st es1 = run scriptdir is_file st es2.
Proof.
  induction 1 as [|e1 e2 es1 es2 Hvar _ IH]; intros st; [done|].
  cbn [run]. rewrite !loop_body_track, (track_pure_variant st e1 e2 Hvar).
  destruct (track st e2) as [st1 a]. cbn [fst snd]. by rewrite IH.
Qed.

End ValueBlind.

(** C10, as stated, fails: the two streams below differ only in the value
    field of their first record, whose kind 0x03 carries the axis bit; its
    button branch reads the value as a press in the first stream and as a
    release in the second, and the second record produces an action, and a
    process, in the first stream only. *)
Lemma value_of_axis_record_matters :
  let es1 := [Event 0 1 0x03 0; Event 10 0 0x01 0] in
  let es2 := [Event 0 0 0x03 0; Event 10 0 0x01 0] in
  Forall2 axis_value_variant es1 es2 /\
  actions tracker_init es1 = [""; "on_button_0_pressed"] /\
  actions tracker_init es2 = [""; ""] /\
  (run "/home/pi" (fun _ => Some true) tracker_init es1).2
    = [("", []);
       ("on_button_0_pressed", [Popen "/home/pi/on_button_0_pressed"])] /\
  (run "/home/pi" (fun _ => Some true) tracker_init es2).2 = [("", []); ("", [])].
Proof.
  intros es1 es2. split.
  - constructor; [|constructor; [|constructor]].
    + split; [by repeat split|]. right. vm_compute. discriminate.
    + split; [by repeat split|]. by left.
  - repeat split; vm_compute; reflexivity.
Qed.

(** C10, amended. The axis branch does not read the value field.  For two
    streams that are identical except for the value field of records that
    carry the axis bit 0x02, the axis state tracked over the two streams is
    the same, and so the stored axis state is the same after both runs when
    neither run was ended by an error of the file check; and when the
    records that differ do not also carry the button bit 0x01 (whose branch
    reads the value), the dictionaries, the actions, the processes started
    and the point where the run ends are the same in both runs. *)
Theorem axis_branch_ignores_value (scriptdir : string) (is_file : string -> option bool)
    (st : tracker) (es1 es2 : list event) :
  Forall2 axis_value_variant es1 es2 ->
  (axes_prev_time (final st es1) = axes_prev_time (final st es2) /\
   axes_prev_value (final st es1) = axes_prev_value (final st es2)) /\
  (crashed (run scriptdir is_file st es1).2 = false ->
   crashed (run scriptdir is_file st es2).2 = false ->
   axes_prev_time (run scriptdir is_file st es1).1
     = axes_prev_time (run scriptdir is_file st es2).1 /\
   axes_prev_value (run scriptdir is_file st es1).1
     = axes_prev_value (run scriptdir is_file st es2).1) /\
  (Forall2 pure_axis_value_variant es1 es2 ->
   run scriptdir is_file st es1 = run scriptdir is_file st es2).
Proof.
  intros Hvar. split; [|split].
  - by apply final_axes_variant.
  - intros Hc1 Hc2. rewrite !run_final by done. by apply final_axes_variant.
  - intros Hpure. by apply run_pure_variant.
Qed.

Lemma axis_branch_ignores_value_witness :
  let es1 := [Event 0 (-30000) 0x02 1; Event 500 0 0x02 1] in
  let es2 := [Event 0 12345 0x02 1; Event 500 777 0x02 1] in
  let sd := "/home/pi" in
  let fs := fun _ : string => Some true in
  Forall2 axis_value_variant es1 es2 /\
  axes_prev_value (run sd fs tracker_init es1).1
    = axes_prev_value (run sd fs tracker_init es2).1 /\
  run sd fs tracker_init es1 = run sd fs tracker_init es2.
Proof.
  intros es1 es2 sd fs.
  assert (Forall2 pure_axis_value_variant es1 es2) as Hpure.
  { constructor; [|constructor; [|constructor]];
      (split; [by repeat split|]); right;
      (split; [vm_compute; discriminate | reflexivity]). }
  assert (Forall2 axis_value_variant es1 es2) as Hvar.
  { constructor; [|constructor; [|constructor]];
      (split; [by repeat split|]); right; vm_compute; discriminate. }
  split; [done|].
  destruct (axis_branch_ignores_value sd fs tracker_init es1 es2 Hvar)
    as (_ & Hstored & Hrun).
  split; [|exact (Hrun Hpure)].
  apply Hstored; vm_compute; reflexivity.
Defined.

(** * Further properties of the code *)

(** ** Decoding (source line 103) *)

Module DecodeFacts.
Import Struct StructFacts.

Lemma byte_val_of (z : Z) : byte_val (byte_of_Z z) = z mod 256.
Proof.
  unfold byte_of_Z, byte_val.
  assert (0 <= z mod 256 < 256) as Hr by (apply Z.mod_pos_bound; lia).
  destruct (Byte.of_N (Z.to_N (z mod 256))) as [b|] eqn:Hb.
  - apply Byte.to_of_N in Hb. rewrite Hb. lia.
  - pose proof (Byte.to_of_N_option_map (Z.to_N (z mod 256))) as Hm.
    rewrite Hb in Hm. cbn in Hm.
    destruct (N.leb_spec (Z.to_N (z mod 256)) 255); [discriminate | lia].
Qed.

Lemma le_uint_le_bytes (n : nat) (z : Z) :
  le_uint (le_bytes n z) = z mod 256 ^ Z.of_nat n.
Proof.
  revert z. induction n as [|n IH]; intros z.
  - cbn. by rewrite Z.mod_1_r.
  - cbn [le_bytes le_uint]. rewrite byte_val_of, IH.
    rewrite Nat2Z.inj_succ, Z.pow_succ_r by lia.
    rewrite Z.rem_mul_r by lia. reflexivity.
Qed.

Lemma to_int16_of_mod (v : Z) :
  - 2 ^ 15 <= v < 2 ^ 15 -> to_int16 (v mod 2 ^ 16) = v.
Proof.
  intros Hv. unfold to_int16.
  destruct (Z.lt_ge_cases v 0) as [Hneg|Hpos].
  - assert (v mod 2 ^ 16 = v + 2 ^ 16) as ->
      by (symmetry; apply (Z.mod_unique_pos _ _ (-1)); lia).
    destruct (Z.ltb_spec (v + 2 ^ 16) (2 ^ 15)); lia.
  - rewrite Z.mod_small by lia.
    destruct (Z.ltb_spec v (2 ^ 15)); lia.
Qed.

(** Encoding what was decoded gives the buffer back. *)
Lemma unpack_then_pack (evbuf : list byte) (e : event) :
  unpack_IhBB evbuf = Some e -> pack_IhBB e = Some evbuf.
Proof.
  intros Hd. pose proof (unpack_wf _ _ Hd) as (Ht & Hv & Hk & Hn).
  destruct evbuf as [|b0 [|b1 [|b2 [|b3 [|b4 [|b5 [|b6 [|b7 [|? ?]]]]]]]]];
    try discriminate.
  injection Hd as <-. unfold pack_IhBB.
  repeat match goal with
  | |- context [?a <=? ?b] => destruct (Z.leb_spec a b); [|lia]
  | |- context [?a <? ?b] => destruct (Z.ltb_spec a b); [|lia]
  end.
  cbn [andb time value type number]. f_equal.
  pose proof (le_uint_range [b4; b5]) as Hu. cbn [length] in Hu.
  change (256 ^ Z.of_nat 2) with (2 ^ 16) in Hu.
  rewrite to_int16_mod by exact Hu.
  cbn [le_bytes le_uint app].
  by rewrite !div_cons, !byte_of_cons, !byte_of_val.
Qed.

(** Decoding what was encoded gives the record back. *)
Lemma pack_then_unpack (e : event) (evbuf : list byte) :
  pack_IhBB e = Some evbuf -> unpack_IhBB evbuf = Some e.
Proof.
  unfold pack_IhBB.
  destruct (_ && _) eqn:Hrange; [|discriminate]. intros [= <-].
  repeat (apply andb_true_iff in Hrange as [Hrange ?]).
  assert (0 <= time e < 2 ^ 32) as Ht by lia.
  assert (- 2 ^ 15 <= value e < 2 ^ 15) as Hv by lia.
  assert (0 <= type e < 256) as Hk by (change 256 with (2 ^ 8); lia).
  assert (0 <= number e < 256) as Hn by (change 256 with (2 ^ 8); lia).
  cbn [le_bytes app unpack_IhBB]. f_equal.
  pose proof (le_uint_le_bytes 4 (time e)) as E4.
  pose proof (le_uint_le_bytes 2 (value e mod 2 ^ 16)) as E2.
  cbn [le_bytes] in E4, E2. rewrite E4, E2.
  change (256 ^ Z.of_nat 4) with (2 ^ 32). change (256 ^ Z.of_nat 2) with (2 ^ 16).
  rewrite (Z.mod_small (time e)) by lia.
  rewrite Z.mod_mod by lia. rewrite to_int16_of_mod by lia.
  rewrite !byte_val_of, (Z.mod_small (type e)), (Z.mod_small (number e)) by lia.
  by destruct e.
Qed.

End DecodeFacts.

(** X1. [struct.unpack('IhBB', evbuf)] succeeds exactly on buffers of 8
    bytes, and the four fields it returns lie in the ranges of their
    formats: time in [0, 2^32), value in [-2^15, 2^15), type and number in
    [0, 2^8). *)
Theorem unpack_fields_in_range (evbuf : list byte) :
  (is_Some (Struct.unpack_IhBB evbuf) <-> length evbuf = 8%nat) /\
  (forall e, Struct.unpack_IhBB evbuf = Some e ->
     0 <= time e < 2 ^ 32 /\ - 2 ^ 15 <= value e < 2 ^ 15 /\
     0 <= type e < 2 ^ 8 /\ 0 <= number e < 2 ^ 8).
Proof.
  split; [apply StructFacts.unpack_length|].
  intros e He. exact (StructFacts.unpack_wf _ _ He).
Qed.

(** X2. Decoding loses nothing: two buffers that decode to the same record
    are the same buffer. *)
Theorem unpack_injective (evbuf1 evbuf2 : list byte) (e : event) :
  Struct.unpack_IhBB evbuf1 = Some e ->
  Struct.unpack_IhBB evbuf2 = Some e ->
  evbuf1 = evbuf2.
Proof.
  intros H1 H2.
  apply DecodeFacts.unpack_then_pack in H1, H2. congruence.
Qed.

Lemma unpack_injective_witness :
  let evbuf := [x10; x27; x00; x00; xd0; x8a; x02; x01]%byte in
  let e := Event 10000 (-30000) 0x02 1 in
  Struct.unpack_IhBB evbuf = Some e /\ evbuf = evbuf.
Proof.
  intros evbuf e. split; [reflexivity|].
  apply (unpack_injective evbuf evbuf e); reflexivity.
Defined.

(** X3. Every record whose fields lie in the ranges of the format is the
    decoding of some buffer: the decoder reaches every time, every signed
    value (negative ones included), every kind and every number. *)
Theorem unpack_surjective (e : event) :
  wf_event e -> exists evbuf, Struct.unpack_IhBB evbuf = Some e.
Proof.
  intros Hwf. destruct (StructFacts.pack_wf e Hwf) as [evbuf Hp].
  exists evbuf. by apply DecodeFacts.pack_then_unpack.
Qed.

Lemma unpack_surjective_witness :
  let e := Event 4294967295 (-32768) 0x81 255 in
  wf_event e /\ exists evbuf, Struct.unpack_IhBB evbuf = Some e.
Proof.
  intros e.
  assert (wf_event e) as Hwf by (unfold wf_event; cbn; lia).
  split; [exact Hwf | exact (unpack_surjective e Hwf)].
Defined.

(** ** The loop over the reads (source lines 100-103) *)

Section ReadFacts.

Variable scriptdir : string.
Variable is_file : string -> option bool.

Lemma main_loop_short (st : tracker) (bad : list byte)
    (rest : list (list byte)) :
  bad <> [] -> length bad <> 8%nat ->
  main_loop scriptdir is_file st (bad :: rest) = (st, [], StructError).
Proof.
  intros Hne Hlen. cbn [main_loop].
  destruct bad as [|b bad]; [done|].
  destruct (Struct.unpack_IhBB (b :: bad)) as [e|] eqn:Hd; [|done].
  exfalso. apply Hlen, StructFacts.unpack_length. eauto.
Qed.

(** The loop over two sequences of reads: the second is reached only when
    the first ended without an exception. *)
Lemma main_loop_append (st : tracker) (reads1 reads2 : list (list byte)) :
  main_loop scriptdir is_file st (reads1 ++ reads2) =
  match main_loop scriptdir is_file st reads1 with
  | (st1, tr1, Blocked) =>
      let '(st2, tr2, fin) := main_loop scriptdir is_file st1 reads2 in
      (st2, tr1 ++ tr2, fin)
  | (st1, tr1, fin) => (st1, tr1, fin)
  end.
Proof.
  revert st. induction reads1 as [|evbuf reads1 IH]; intros st.
  - cbn. by destruct (main_loop scriptdir is_file st reads2) as [[? ?] ?].
  - cbn [app main_loop]. destruct evbuf as [|b evbuf]; [apply IH|].
    destruct (Struct.unpack_IhBB (b :: evbuf)) as [e|]; [|done].
    destruct (loop_body scriptdir is_file st e) as [[st1 a] fx].
    destruct (raises fx); [done|].
    rewrite IH.
    destruct (main_loop scriptdir is_file st1 reads1) as [[st2 tr] []];
      [|done|done].
    by destruct (main_loop scriptdir is_file st2 reads2) as [[? ?] ?].
Qed.

(** An invariant of [track] on decoded records, together with a property of
    every pass, holds along the whole loop. *)
Lemma main_loop_invariant (I : tracker -> Prop)
    (P : string * list effect -> Prop) :
  (forall st e, wf_event e -> I st ->
     I (track st e).1 /\
     P ((track st e).2, dispatch scriptdir is_file (track st e).2)) ->
  forall reads st, I st ->
    I (main_loop scriptdir is_file st reads).1.1 /\
    Forall P (main_loop scriptdir is_file st reads).1.2.
Proof.
  intros Hstep reads. induction reads as [|evbuf reads IH]; intros st Hst;
    [by split|].
  cbn [main_loop]. destruct evbuf as [|b evbuf]; [by apply IH|].
  destruct (Struct.unpack_IhBB (b :: evbuf)) as [e|] eqn:Hd; [|by split].
  apply StructFacts.unpack_wf in Hd.
  rewrite loop_body_track.
  destruct (Hstep st e Hd Hst) as [Hst1 HP].
  destruct (track st e) as [st1 a]. cbn [fst snd] in Hst1, HP |- *.
  destruct (raises (dispatch scriptdir is_file a)).
  { cbn [fst snd]. split; [done|]. by repeat constructor. }
  destruct (IH st1 Hst1) as [IH1 IH2].
  destruct (main_loop scriptdir is_file st1 reads) as [[st2 tr] fin].
  cbn [fst snd] in *. split; [done|]. by constructor.
Qed.

End ReadFacts.

(** X4. A read that delivers some bytes but not 8 ends the loop with
    [struct.error]: the records read before it have been processed as
    usual, and nothing that the device would deliver afterwards is looked
    at.  (Had a file check already raised [OSError] on one of the earlier
    records, the loop would have ended there, before the short read.) *)
Theorem short_read_stops (scriptdir : string) (is_file : string -> option bool)
    (st : tracker) (reads : list (list byte)) (es : list event)
    (bad : list byte) (rest : list (list byte)) :
  Forall2 (fun evbuf e => Struct.unpack_IhBB evbuf = Some e) reads es ->
  bad <> [] -> length bad <> 8%nat ->
  main_loop scriptdir is_file st (reads ++ bad :: rest)
  = (run scriptdir is_file st es,
     if crashed (run scriptdir is_file st es).2 then OSError else StructError).
Proof.
  intros Hd Hne Hlen.
  rewrite main_loop_append, (main_loop_run _ _ _ _ _ Hd).
  destruct (run scriptdir is_file st es) as [st1 tr1]. cbn [snd].
  destruct (crashed tr1); [done|].
  rewrite (main_loop_short _ _ _ _ _ Hne Hlen). by rewrite app_nil_r.
Qed.

Lemma short_read_stops_witness :
  let press := [x00; x00; x00; x00; x01; x00; x01; x03]%byte in
  let release := [x0a; x00; x00; x00; x00; x00; x01; x03]%byte in
  let bad := [x14; x00; x00]%byte in
  let fs := fun _ : string => Some true in
  (Forall2 (fun evbuf e => Struct.unpack_IhBB evbuf = Some e)
     [press] [Event 0 1 0x01 3] /\ bad <> [] /\ length bad <> 8%nat) /\
  main_loop "/home/pi" fs tracker_init ([press] ++ bad :: [release])
  = (run "/home/pi" fs tracker_init [Event 0 1 0x01 3], StructError).
Proof.
  intros press release bad fs.
  assert (Forall2 (fun evbuf e => Struct.unpack_IhBB evbuf = Some e)
            [press] [Event 0 1 0x01 3]) as Hd
    by (constructor; [reflexivity | constructor]).
  assert (bad <> []) as Hne by discriminate.
  assert (length bad <> 8%nat) as Hlen by (cbn; lia).
  split; [done|].
  exact (short_read_stops "/home/pi" fs tracker_init [press]
           [Event 0 1 0x01 3] bad [release] Hd Hne Hlen).
Defined.

(** X5. Empty reads are skipped wherever they occur: the loop over a
    sequence of reads does exactly what it does over the reads that
    delivered something. *)
Theorem empty_reads_skipped (scriptdir : string) (is_file : string -> option bool)
    (st : tracker) (reads : list (list byte)) :
  main_loop scriptdir is_file st reads
  = main_loop scriptdir is_file st (List.filter delivers reads).
Proof.
  revert st. induction reads as [|evbuf reads IH]; intros st; [done|].
  destruct evbuf as [|b evbuf]; [apply IH|].
  cbn [List.filter delivers main_loop].
  destruct (Struct.unpack_IhBB (b :: evbuf)) as [e|]; [|done].
  destruct (loop_body scriptdir is_file st e) as [[st1 a] fx].
  by rewrite IH.
Qed.

(** ** What a record writes (source lines 113, 141, 142) *)

(** The press times after a record: the record's own entry is written by a
    press, and nothing else changes. *)
Lemma track_buttons_written (st : tracker) (e : event) :
  button_press_time (track st e).1 =
  if bit_set (type e) 0x80 then button_press_time st
  else if bit_set (type e) 0x01 && negb (value e =? 0)
       then <[number e := time e]> (button_press_time st)
       else button_press_time st.
Proof.
  rewrite track_buttons. destruct (bit_set (type e) 128); [done|].
  unfold button_branch. destruct (bit_set (type e) 1); [|done].
  destruct (negb (value e =? 0)); [done|]. cbn [andb].
  destruct (button_press_time st !! number e); [|done].
  by destruct (_ <? _).
Qed.

(** X7. A record touches only the entries of its own number: in all three
    dictionaries the entry of every other number is after the record what it
    was before. *)
Theorem other_numbers_untouched (st : tracker) (e : event) (k : Z) :
  k <> number e ->
  button_press_time (track st e).1 !! k = button_press_time st !! k /\
  axes_prev_time (track st e).1 !! k = axes_prev_time st !! k /\
  axes_prev_value (track st e).1 !! k = axes_prev_value st !! k.
Proof.
  intros Hk. rewrite track_buttons_written.
  destruct (track_axes st e) as [-> ->].
  destruct (bit_set (type e) 128); [done|].
  split; [|split].
  - destruct (_ && _); [|done]. by rewrite lookup_insert_ne.
  - destruct (bit_set (type e) 2); [|done]. by rewrite lookup_insert_ne.
  - destruct (bit_set (type e) 2); [|done]. by rewrite lookup_insert_ne.
Qed.

Lemma other_numbers_untouched_witness :
  let st := (track tracker_init (Event 0 1 0x01 3)).1 in
  let e := Event 10 1 0x03 4 in
  3 <> 4 /\ button_press_time (track st e).1 !! 3 = Some 0.
Proof.
  intros st e. assert (3 <> number e) as Hk by (cbn; lia).
  split; [lia|].
  destruct (other_numbers_untouched st e 3 Hk) as [-> _].
  vm_compute. reflexivity.
Defined.

(** X8. Which records write which dictionary: the press times change only
    on a press (bit 0x01 set, value non-zero, bit 0x80 clear), and the two
    axis dictionaries only on a record with bit 0x02 set and bit 0x80 clear.
    A release, or any record with bit 0x80, leaves the press times as they
    were; a record without the axis bit leaves the axis dictionaries as they
    were. *)
Theorem writes_by_kind (st : tracker) (e : event) :
  (Z.land (type e) 0x80 <> 0 \/ Z.land (type e) 0x01 = 0 \/ value e = 0 ->
   button_press_time (track st e).1 = button_press_time st) /\
  (Z.land (type e) 0x80 <> 0 \/ Z.land (type e) 0x02 = 0 ->
   axes_prev_time (track st e).1 = axes_prev_time st /\
   axes_prev_value (track st e).1 = axes_prev_value st) /\
  (Z.land (type e) 0x80 = 0 -> Z.land (type e) 0x01 <> 0 -> value e <> 0 ->
   button_press_time (track st e).1
     = <[number e := time e]> (button_press_time st)) /\
  (Z.land (type e) 0x80 = 0 -> Z.land (type e) 0x02 <> 0 ->
   axes_prev_time (track st e).1
     = <[number e := time e]> (axes_prev_time st)).
Proof.
  rewrite track_buttons_written. destruct (track_axes st e) as [-> ->].
  split; [|split; [|split]].
  - intros [H | [H | H]].
    + apply bit_set_true in H. by rewrite H.
    + apply bit_set_false in H. rewrite H. by destruct (bit_set _ 128).
    + rewrite H. cbn [Z.eqb negb]. rewrite andb_false_r.
      by destruct (bit_set _ 128).
  - intros [H | H].
    + apply bit_set_true in H. by rewrite H.
    + apply bit_set_false in H. rewrite H. by destruct (bit_set _ 128).
  - intros Hi Hb Hv. apply bit_set_false in Hi. apply bit_set_true in Hb.
    apply Z.eqb_neq in Hv. by rewrite Hi, Hb, Hv.
  - intros Hi Ha. apply bit_set_false in Hi. apply bit_set_true in Ha.
    by rewrite Hi, Ha.
Qed.

(** ** Invariants of the dictionaries along the loop *)

Lemma tracker_inv_init : tracker_inv tracker_init.
Proof. split; try done; cbn; intros ? ?; by rewrite lookup_empty. Qed.

Lemma track_inv (st : tracker) (e : event) :
  wf_event e -> tracker_inv st -> tracker_inv (track st e).1.
Proof.
  intros (Ht & _ & _ & Hn) [Hb Hat Hk Hv].
  split.
  - intros k t. rewrite track_buttons_written.
    destruct (bit_set (type e) 128); [apply Hb|].
    destruct (_ && _); [|apply Hb].
    destruct (decide (k = number e)) as [->|Hne].
    + rewrite lookup_insert_eq. by intros [= <-].
    + rewrite lookup_insert_ne by done. apply Hb.
  - intros k t. rewrite (proj1 (track_axes st e)).
    destruct (bit_set (type e) 128); [apply Hat|].
    destruct (bit_set (type e) 2); [|apply Hat].
    destruct (decide (k = number e)) as [->|Hne].
    + rewrite lookup_insert_eq. by intros [= <-].
    + rewrite lookup_insert_ne by done. apply Hat.
  - destruct (track_axes st e) as [-> ->].
    destruct (bit_set (type e) 128); [done|].
    destruct (bit_set (type e) 2); [|done].
    by rewrite !dom_insert_L, Hk.
  - intros k v. rewrite (proj2 (track_axes st e)).
    destruct (bit_set (type e) 128); [apply Hv|].
    destruct (bit_set (type e) 2); [|apply Hv].
    destruct (decide (k = number e)) as [->|Hne].
    + rewrite lookup_insert_eq. by intros [= <-].
    + rewrite lookup_insert_ne by done. apply Hv.
Qed.

(** X9. Whatever the device delivers, the dictionaries of the loop keep
    these invariants: every key is an 8-bit number and every stored time an
    unsigned 32-bit number; the two axis dictionaries have the same keys (so
    the double membership test of line 127 never splits); and the value
    stored for an axis is the quotient of its number by 32767.0. *)
Theorem dictionaries_invariant (scriptdir : string) (is_file : string -> option bool)
    (reads : list (list byte)) :
  tracker_inv (main_loop scriptdir is_file tracker_init reads).1.1.
Proof.
  refine (proj1 (main_loop_invariant scriptdir is_file tracker_inv
                   (fun _ => True) _ reads tracker_init tracker_inv_init)).
  intros st e Hwf Hst. split; [by apply track_inv | done].
Qed.

Lemma uint8_keys_size {A : Type} (m : gmap Z A) :
  (forall k x, m !! k = Some x -> 0 <= k < 2 ^ 8) -> (size m <= 256)%nat.
Proof.
  intros Hkeys.
  assert (dom m ⊆ (list_to_set uint8_values : gset Z)) as Hsub.
  { intros k Hk. apply elem_of_dom in Hk as [x Hx].
    apply elem_of_list_to_set, list_elem_of_In, uint8_values_spec.
    by apply (Hkeys k x). }
  apply subseteq_size in Hsub. rewrite size_dom in Hsub.
  etrans; [exact Hsub|].
  rewrite size_list_to_set.
  - unfold uint8_values. by rewrite length_fmap, length_seq.
  - unfold uint8_values. apply NoDup_fmap; [|apply NoDup_seq].
    intros a b. lia.
Qed.

(** X10. The dictionaries never grow beyond 256 entries each, however long
    the loop runs. *)
Theorem dictionaries_bounded (scriptdir : string) (is_file : string -> option bool)
    (reads : list (list byte)) :
  let st := (main_loop scriptdir is_file tracker_init reads).1.1 in
  (size (button_press_time st) <= 256)%nat /\
  (size (axes_prev_time st) <= 256)%nat /\
  (size (axes_prev_value st) <= 256)%nat.
Proof.
  intros st.
  assert (tracker_inv st) as [Hb Hat Hk Hv].
  { refine (proj1 (main_loop_invariant scriptdir is_file tracker_inv
                     (fun _ => True) _ reads tracker_init tracker_inv_init)).
    intros st0 e Hwf Hst. split; [by apply track_inv | done]. }
  split; [|split].
  - apply uint8_keys_size. intros k t Hkt. by apply (Hb k t).
  - apply uint8_keys_size. intros k t Hkt. by apply (Hat k t).
  - rewrite <- size_dom, <- Hk, size_dom.
    apply uint8_keys_size. intros k t Hkt. by apply (Hat k t).
Qed.

Lemma keys_kept_refl (st : tracker) : keys_kept st st.
Proof. by repeat split. Qed.

Lemma keys_kept_trans (st1 st2 st3 : tracker) :
  keys_kept st1 st2 -> keys_kept st2 st3 -> keys_kept st1 st3.
Proof.
  intros (H1 & H2 & H3) (H4 & H5 & H6).
  repeat split; etrans; eassumption.
Qed.

Lemma track_keys_kept (st : tracker) (e : event) : keys_kept st (track st e).1.
Proof.
  unfold keys_kept. rewrite track_buttons_written.
  destruct (track_axes st e) as [-> ->].
  destruct (bit_set (type e) 128); [done|].
  repeat split.
  - destruct (_ && _); [|done]. rewrite dom_insert_L. set_solver.
  - destruct (bit_set (type e) 2); [|done]. rewrite dom_insert_L. set_solver.
  - destruct (bit_set (type e) 2); [|done]. rewrite dom_insert_L. set_solver.
Qed.

(** X11. The loop never forgets: from any dictionaries, every key present
    before a run over any reads is still present after it, in each of the
    three dictionaries (entries are overwritten, never deleted). *)
Theorem keys_never_deleted (scriptdir : string) (is_file : string -> option bool)
    (st : tracker) (reads : list (list byte)) :
  keys_kept st (main_loop scriptdir is_file st reads).1.1.
Proof.
  revert st. induction reads as [|evbuf reads IH]; intros st;
    [apply keys_kept_refl|].
  cbn [main_loop]. destruct evbuf as [|b evbuf]; [apply IH|].
  destruct (Struct.unpack_IhBB (b :: evbuf)) as [e|];
    [|apply keys_kept_refl].
  rewrite loop_body_track.
  pose proof (track_keys_kept st e) as Hstep.
  destruct (track st e) as [st1 a]. cbn [fst snd] in Hstep |- *.
  destruct (raises (dispatch scriptdir is_file a)); [done|].
  specialize (IH st1).
  destruct (main_loop scriptdir is_file st1 reads) as [[st2 tr] fin].
  cbn [fst snd] in *. by apply (keys_kept_trans _ st1).
Qed.

(** ** The calls of [Popen] (source lines 119, 144-147) *)

Lemma dispatch_cases (scriptdir : string) (is_file : string -> option bool)
    (n : Z) :
  let script_file := scriptdir +:+ "/" +:+ button_script n in
  (is_file script_file = Some false /\
   dispatch scriptdir is_file (button_script n) = []) \/
  (is_file script_file = Some true /\
   dispatch scriptdir is_file (button_script n) = [Popen script_file]) \/
  (is_file script_file = None /\
   dispatch scriptdir is_file (button_script n) = [Raise script_file]).
Proof.
  unfold dispatch. cbn [button_script String.length append Nat.ltb Nat.leb].
  fold (button_script n). cbv zeta.
  destruct (is_file (scriptdir +:+ "/" +:+ button_script n)) as [[|]|]; eauto.
Qed.

(** X12. Whatever the device delivers, a pass through the loop calls
    [Popen] at most once, and every call is made with the string
    [scriptdir/on_button_<n>_pressed], for an 8-bit [n], for which
    [is_file] has just returned [True]; the only other thing a dispatch
    does is to raise the [OSError] of that check, for a path of the same
    form.  (The string is the command line given to the shell; what the
    shell makes of it is not part of this statement.) *)
Theorem popen_only_for_button_scripts (scriptdir : string)
    (is_file : string -> option bool) (reads : list (list byte)) :
  Forall (fun out =>
            out.2 = [] \/
            exists n, 0 <= n < 2 ^ 8 /\ out.1 = button_script n /\
              ((is_file (scriptdir +:+ "/" +:+ button_script n) = Some true /\
                out.2 = [Popen (scriptdir +:+ "/" +:+ button_script n)]) \/
               (is_file (scriptdir +:+ "/" +:+ button_script n) = None /\
                out.2 = [Raise (scriptdir +:+ "/" +:+ button_script n)])))
         (main_loop scriptdir is_file tracker_init reads).1.2.
Proof.
  refine (proj2 (main_loop_invariant scriptdir is_file axes_quiet _ _
                   reads tracker_init axes_quiet_init)).
  intros st e (_ & _ & _ & Hn) Hq. split; [by apply track_quiet|].
  rewrite (track_action _ _ Hq). cbn [fst snd].
  destruct (bit_set (type e) 128); [by left|].
  destruct (button_branch_cases st e) as [-> | ->]; [by left|].
  fold (button_script (number e)).
  destruct (dispatch_cases scriptdir is_file (number e))
    as [[_ ->] | [[Hf ->] | [Hf ->]]]; [by left | |];
    right; exists (number e); eauto.
Qed.

Lemma append_length (s t : string) :
  String.length (s +:+ t) = (String.length s + String.length t)%nat.
Proof.
  induction s as [|c s IH]; [done|].
  change (S (String.length (s +:+ t)) = S (String.length s + String.length t)).
  by rewrite IH.
Qed.

Lemma append_inj_r (s1 s2 t : string) : s1 +:+ t = s2 +:+ t -> s1 = s2.
Proof.
  revert s2. induction s1 as [|c s1 IH]; intros [|d s2] H.
  - done.
  - apply (f_equal String.length) in H.
    rewrite !append_length in H. cbn [String.length] in H. lia.
  - apply (f_equal String.length) in H.
    rewrite !append_length in H. cbn [String.length] in H. lia.
  - change (String c (s1 +:+ t) = String d (s2 +:+ t)) in H.
    injection H as -> H. by rewrite (IH _ H).
Qed.

Lemma to_int_proper (z : Z) :
  Z.to_int z <> Decimal.Pos Decimal.Nil /\ Z.to_int z <> Decimal.Neg Decimal.Nil.
Proof.
  assert (Z.to_int z = Decimal.norm (Z.to_int z)) as ->
    by (by rewrite <- DecimalZ.to_of, DecimalZ.of_to).
  destruct (Z.to_int z) as [d|d]; cbn [Decimal.norm].
  - split; [|discriminate]. intros [= H]. by apply DecimalFacts.unorm_nonnil in H.
  - destruct (Decimal.nzhead d) eqn:Hd; split; discriminate.
Qed.

Lemma str_inj (n m : Z) : str n = str m -> n = m.
Proof.
  unfold str. intros H.
  destruct (to_int_proper n) as [Hn1 Hn2], (to_int_proper m) as [Hm1 Hm2].
  apply DecimalZ.to_int_inj.
  apply (f_equal NilZero.int_of_string) in H.
  rewrite !NilZero.isi in H by done. by injection H.
Qed.

(** X13. The script name tells the button: two buttons have the same
    script name exactly when they are the same button, so no script is
    shared between buttons. *)
Theorem button_script_inj (n m : Z) : button_script n = button_script m <-> n = m.
Proof.
  split; [|by intros ->]. unfold button_script. intros H.
  apply (inj (append "on_button_")) in H.
  by apply append_inj_r, str_inj in H.
Qed.

(** ** The classification (source lines 116-119, 126-135) *)

(** X14. For 8-bit numbers the test [fvalue == 0] of line 129 succeeds for
    axis 0 and for no other axis. *)
Theorem zero_test_only_axis_zero (n : Z) :
  0 <= n < 2 ^ 8 -> (PrimFloat.eqb (fvalue n) 0%float = true <-> n = 0).
Proof.
  intros Hn. rewrite (fvalue_zero n Hn). apply Z.eqb_eq.
Qed.

Lemma zero_test_only_axis_zero_witness :
  0 <= 1 < 2 ^ 8 /\ (PrimFloat.eqb (fvalue 1) 0%float = true <-> 1 = 0).
Proof.
  assert (0 <= 1 < 2 ^ 8) as Hn by lia.
  split; [exact Hn | exact (zero_test_only_axis_zero 1 Hn)].
Defined.

(** X15. An action is produced only by a short release: when a record ends
    with a non-empty action name (on dictionaries the loop can have
    reached), the record has bit 0x80 clear and bit 0x01 set, its value is
    0, a press of its number is recorded less than [max_duration] before the
    record's time, and the name is that of the button's script. *)
Theorem action_only_on_short_release (st : tracker) (e : event) :
  axes_quiet st -> (track st e).2 <> "" ->
  Z.land (type e) 0x80 = 0 /\ Z.land (type e) 0x01 <> 0 /\ value e = 0 /\
  (exists pressed, button_press_time st !! number e = Some pressed /\
                   time e - pressed < max_duration) /\
  (track st e).2 = button_script (number e).
Proof.
  intros Hq. rewrite (track_action _ _ Hq).
  destruct (bit_set (type e) 128) eqn:Hi; [done|].
  apply bit_set_false in Hi. unfold button_branch, duration.
  destruct (bit_set (type e) 1) eqn:Hb; [|done].
  apply bit_set_true in Hb.
  destruct (Z.eqb_spec (value e) 0) as [Hv|Hv]; cbn [negb]; [|done].
  destruct (button_press_time st !! number e) as [pressed|]; [|done].
  destruct (Z.ltb_spec (time e - pressed) max_duration); [|done].
  intros _. repeat split; try done. by exists pressed.
Qed.

Lemma action_only_on_short_release_witness :
  let st := (track tracker_init (Event 0 1 0x01 3)).1 in
  let e := Event 999 0 0x01 3 in
  (axes_quiet st /\ (track st e).2 <> "") /\
  value e = 0 /\ (track st e).2 = button_script 3.
Proof.
  intros st e.
  assert (axes_quiet st) as Hq by decide_quiet.
  assert ((track st e).2 <> "") as Ha by (vm_compute; discriminate).
  split; [done|].
  destruct (action_only_on_short_release st e Hq Ha) as (_ & _ & Hv & _ & Hn).
  split; [exact Hv | exact Hn].
Defined.

(** ** Start-up (source lines 33-67) *)

Module StartupFacts.
Import Startup.

Lemma verbose_flag_spec (a : string) :
  String.eqb a "-v" || String.eqb a "--verbose" = true
  <-> a = "-v" \/ a = "--verbose".
Proof. rewrite orb_true_iff, !String.eqb_eq. tauto. Qed.

Lemma help_flag_spec (a : string) :
  String.eqb a "-h" || String.eqb a "--help" = true
  <-> a = "-h" \/ a = "--help".
Proof. rewrite orb_true_iff, !String.eqb_eq. tauto. Qed.

(** Once a device name has been found the loop of lines 57-62 keeps it. *)
Lemma scan_keeps (listing : list string) (dev : string) :
  dev <> "" ->
  fold_left
    (fun dev inpname =>
       if String.prefix "js" inpname then
         if (String.length dev <=? 0)%nat then "/dev/input/" +:+ inpname
         else dev
       else dev)
    listing dev = dev.
Proof.
  intros Hdev. induction listing as [|n listing IH]; [done|].
  cbn [fold_left]. destruct dev as [|c dev]; [done|].
  destruct (String.prefix "js" n); cbn [String.length Nat.leb]; apply IH.
Qed.

Lemma flags_not_flag (argv : list string) :
  (forall a, argv !! 1%nat = Some a -> is_flag a = false) ->
  flags argv = Some (false, 0%nat).
Proof.
  unfold flags, is_flag. destruct (argv !! 1%nat) as [a|]; [|done].
  intros H. specialize (H a eq_refl).
  rewrite <- orb_assoc in H. apply orb_false_iff in H as [-> ->]. done.
Qed.

(** What lines 33-49 decide from the first argument. *)
Lemma flags_spec (argv : list string) :
  match flags argv with
  | None => argv !! 1%nat = Some "-h" \/ argv !! 1%nat = Some "--help"
  | Some (verbose, argshift) =>
      ~ (argv !! 1%nat = Some "-h" \/ argv !! 1%nat = Some "--help") /\
      if verbose
      then argshift = 1%nat /\
           (argv !! 1%nat = Some "-v" \/ argv !! 1%nat = Some "--verbose")
      else argshift = 0%nat /\
           ~ (argv !! 1%nat = Some "-v" \/ argv !! 1%nat = Some "--verbose")
  end.
Proof.
  unfold flags. destruct (argv !! 1%nat) as [a|].
  - destruct (String.eqb a "-v" || String.eqb a "--verbose") eqn:Hv.
    + apply verbose_flag_spec in Hv. split; [|split; [done|]].
      * intros [[= ->] | [= ->]]; destruct Hv; discriminate.
      * destruct Hv as [-> | ->]; [by left | by right].
    + assert (~ (a = "-v" \/ a = "--verbose")) as Hnv
        by (rewrite <- verbose_flag_spec, Hv; done).
      destruct (String.eqb a "-h" || String.eqb a "--help") eqn:Hh.
      * apply help_flag_spec in Hh. destruct Hh as [-> | ->]; [by left | by right].
      * assert (~ (a = "-h" \/ a = "--help")) as Hnh
          by (rewrite <- help_flag_spec, Hh; done).
        split; [|split; [done|]].
        -- intros [[= ->] | [= ->]]; apply Hnh; [by left | by right].
        -- intros [[= ->] | [= ->]]; apply Hnv; [by left | by right].
  - split; [|split; [done|]]; intros [|]; discriminate.
Qed.

End StartupFacts.

(** X16. Without a device argument the device is the first name of the
    directory listing that starts with [js], under [/dev/input/]; later
    names do not replace it, and the device name stays empty when no name
    starts with [js]. *)
Theorem first_js_is_first_match (listing : list string) :
  Startup.first_js listing =
  match List.filter (String.prefix "js") listing with
  | [] => ""
  | inpname :: _ => "/dev/input/" +:+ inpname
  end.
Proof.
  unfold Startup.first_js.
  induction listing as [|n listing IH]; [done|].
  cbn [fold_left List.filter]. destruct (String.prefix "js" n); [|exact IH].
  cbn [String.length Nat.leb].
  by apply StartupFacts.scan_keeps.
Qed.

(** X17. How the start-up ends.  The usage is printed exactly when the
    first argument is [-h] or [--help]; the listing of [/dev/input] can only
    fail the program when no device argument is given; and when the program
    goes on, [print_device_info] equals [verbose_output], which is set
    exactly when the first argument is [-v] or [--verbose]. *)
Theorem startup_outcomes (argv : list string) (listing : option (list string))
    (home : string) :
  (Startup.startup argv listing home = Startup.Usage
     <-> argv !! 1%nat = Some "-h" \/ argv !! 1%nat = Some "--help") /\
  (Startup.startup argv listing home = Startup.ListdirError
     <-> listing = None /\
         ((length argv <= 1)%nat \/
          (length argv = 2%nat /\
           (argv !! 1%nat = Some "-v" \/ argv !! 1%nat = Some "--verbose")))) /\
  (forall s, Startup.startup argv listing home = Startup.Start s ->
     Startup.print_device_info s = Startup.verbose_output s /\
     (Startup.verbose_output s = true
        <-> argv !! 1%nat = Some "-v" \/ argv !! 1%nat = Some "--verbose")).
Proof.
  pose proof (StartupFacts.flags_spec argv) as Hf.
  unfold Startup.startup.
  destruct (Startup.flags argv) as [[verbose argshift]|].
  - destruct Hf as [Hnh Hv].
    assert (argv !! (1 + argshift)%nat = None <->
            (length argv <= 1)%nat \/
            (length argv = 2%nat /\
             (argv !! 1%nat = Some "-v" \/ argv !! 1%nat = Some "--verbose")))
      as Hdev.
    { rewrite lookup_ge_None. destruct verbose.
      - destruct Hv as [-> Hv]. split.
        + intros Hlen. right. split; [|done].
          assert (is_Some (argv !! 1%nat)) as Hs by (destruct Hv as [-> | ->]; eauto).
          apply lookup_lt_is_Some in Hs. cbn in Hlen. lia.
        + intros [Hlen | [Hlen _]]; cbn; [|lia].
          assert (is_Some (argv !! 1%nat)) as Hs by (destruct Hv as [-> | ->]; eauto).
          apply lookup_lt_is_Some in Hs. lia.
      - destruct Hv as [-> Hv]. cbn. split; [by left|].
        intros [Hlen | [_ Hverb]]; [done | by destruct Hv]. }
    split; [|split].
    + split; [|done].
      destruct (argv !! (1 + argshift)%nat); [done|]. by destruct listing.
    + rewrite <- Hdev.
      destruct (argv !! (1 + argshift)%nat) as [d|].
      * split; [done | by intros [_ ?]].
      * destruct listing; cbn; [split; [done | by intros [? _]] | done].
    + intros s Hs.
      assert (Startup.verbose_output s = verbose /\
              Startup.print_device_info s = verbose) as [-> ->].
      { destruct (argv !! (1 + argshift)%nat) as [d|];
          [|destruct listing; cbn in Hs; [|done]];
          injection Hs as <-; done. }
      split; [done|]. destruct verbose; destruct Hv as [_ Hv]; [done|].
      split; [done | by intros ?].
  - split; [done|]. split; [|done].
    split; [done|]. intros [_ [Hlen | [_ Hverb]]].
    + assert (is_Some (argv !! 1%nat)) as Hs by (destruct Hf as [-> | ->]; eauto).
      apply lookup_lt_is_Some in Hs. lia.
    + destruct Hf as [Hh | Hh]; destruct Hverb as [Hv | Hv];
        rewrite Hh in Hv; discriminate.
Qed.

(** X18. The verbose option only shifts the arguments: when what follows
    it does not itself begin with one of the four options, the start-up
    with [-v] or [--verbose] ends as the start-up without it, with the two
    verbose flags set. *)
Theorem verbose_only_shifts (prog flag : string) (rest : list string)
    (listing : option (list string)) (home : string) :
  flag = "-v" \/ flag = "--verbose" ->
  (forall a, head rest = Some a -> Startup.is_flag a = false) ->
  Startup.startup (prog :: flag :: rest) listing home
  = Startup.set_verbose (Startup.startup (prog :: rest) listing home).
Proof.
  intros Hflag Hrest. unfold Startup.startup at 2.
  rewrite (StartupFacts.flags_not_flag (prog :: rest))
    by (intros a; destruct rest; [done | apply Hrest]).
  unfold Startup.startup, Startup.flags. cbn [lookup list_lookup].
  apply StartupFacts.verbose_flag_spec in Hflag. rewrite Hflag.
  cbn [Nat.add lookup list_lookup].
  destruct rest as [|d rest]; cbn [lookup list_lookup]; [|done].
  by destruct listing.
Qed.

Lemma verbose_only_shifts_witness :
  let rest := ["/dev/input/js1"; "/opt/scripts"] in
  ("--verbose" = "-v" \/ "--verbose" = "--verbose") /\
  (forall a, head rest = Some a -> Startup.is_flag a = false) /\
  Startup.startup ("prog" :: "--verbose" :: rest) None "/home/pi"
  = Startup.set_verbose (Startup.startup ("prog" :: rest) None "/home/pi").
Proof.
  intros rest.
  assert ("--verbose" = "-v" \/ "--verbose" = "--verbose") as Hflag by (by right).
  assert (forall a, head rest = Some a -> Startup.is_flag a = false) as Hrest
    by (intros a [= <-]; reflexivity).
  split; [done|]. split; [done|].
  exact (verbose_only_shifts "prog" "--verbose" rest None "/home/pi" Hflag Hrest).
Defined.

(** X19. With a device argument the directory [/dev/input] plays no part:
    when the command line has at least three words, the start-up ends the
    same way whatever the listing is, even when listing fails; with at
    least four words the home directory plays no part either. *)
Theorem device_argument_skips_listing (argv : list string)
    (listing1 listing2 : option (list string)) (home1 home2 : string) :
  (3 <= length argv)%nat ->
  Startup.startup argv listing1 home1 = Startup.startup argv listing2 home1 /\
  ((4 <= length argv)%nat ->
   Startup.startup argv listing1 home1 = Startup.startup argv listing2 home2).
Proof.
  intros Hlen.
  destruct argv as [|prog [|a [|b rest]]]; cbn in Hlen; try lia.
  unfold Startup.startup. destruct (Startup.flags _) as [[verbose [|[|n]]]|] eqn:Hf.
  - cbn [Nat.add lookup list_lookup]. split; [done|].
    destruct rest; [cbn; lia | done].
  - cbn [Nat.add lookup list_lookup]. split; [done|].
    intros Hlen4. destruct rest as [|c rest]; [cbn in Hlen4; lia | done].
  - exfalso. unfold Startup.flags in Hf. cbn [lookup list_lookup] in Hf.
    destruct (_ || _) in Hf; [discriminate|].
    destruct (_ || _) in Hf; discriminate.
  - done.
Qed.

Lemma device_argument_skips_listing_witness :
  let argv := ["prog"; "-v"; "/dev/input/js1"; "/opt/scripts"] in
  (3 <= length argv)%nat /\
  Startup.startup argv None "/home/pi"
  = Startup.startup argv (Some ["js0"; "mouse0"]) "/root".
Proof.
  intros argv. assert (3 <= length argv)%nat as Hlen by (cbn; lia).
  split; [exact Hlen|].
  destruct (device_argument_skips_listing argv None (Some ["js0"; "mouse0"])
              "/home/pi" "/root" Hlen) as [_ H4].
  apply H4. cbn. lia.
Defined.

(** ** A file check that raises (source line 146) *)

(** X21. An [OSError] of the file check ends the loop.  When the records
    read so far were processed without error and the next record yields a
    non-empty action whose check raises, the record's updates of the
    dictionaries have been made (lines 113, 141 and 142 come before the
    check), no process is started for it, the loop ends with that error and
    nothing the device would deliver afterwards is looked at. *)
Theorem is_file_error_stops (scriptdir : string)
    (is_file : string -> option bool) (st : tracker)
    (reads : list (list byte)) (es : list event)
    (evbuf : list byte) (e : event) (rest : list (list byte)) :
  Forall2 (fun evbuf e => Struct.unpack_IhBB evbuf = Some e) reads es ->
  crashed (run scriptdir is_file st es).2 = false ->
  Struct.unpack_IhBB evbuf = Some e ->
  (track (final st es) e).2 <> "" ->
  is_file (scriptdir +:+ "/" +:+ (track (final st es) e).2) = None ->
  main_loop scriptdir is_file st (reads ++ evbuf :: rest)
  = ((track (final st es) e).1,
     (run scriptdir is_file st es).2
       ++ [((track (final st es) e).2,
            [Raise (scriptdir +:+ "/" +:+ (track (final st es) e).2)])],
     OSError).
Proof.
  intros Hd Hc He Ha Hfs.
  rewrite main_loop_append, (main_loop_run _ _ _ _ _ Hd), Hc.
  rewrite <- (run_final scriptdir is_file st es Hc) in *.
  destruct (run scriptdir is_file st es) as [st1 tr1]. cbn [fst snd] in *.
  cbn [main_loop]. rewrite He. destruct evbuf as [|b evbuf]; [discriminate|].
  rewrite loop_body_track. destruct (track st1 e) as [st2 a].
  cbn [fst snd] in *. unfold dispatch.
  rewrite (nonempty_length _ Ha), Hfs. done.
Qed.

Lemma is_file_error_stops_witness :
  let press := [x00; x00; x00; x00; x01; x00; x01; x00]%byte in
  let release := [x0a; x00; x00; x00; x00; x00; x01; x00]%byte in
  let fs := fun _ : string => @None bool in
  let es := [Event 0 1 0x01 0] in
  let e := Event 10 0 0x01 0 in
  (Forall2 (fun evbuf e => Struct.unpack_IhBB evbuf = Some e) [press] es /\
   crashed (run "/home/pi" fs tracker_init es).2 = false /\
   Struct.unpack_IhBB release = Some e /\
   (track (final tracker_init es) e).2 <> "") /\
  main_loop "/home/pi" fs tracker_init ([press] ++ release :: [press; release])
  = ((track (final tracker_init es) e).1,
     [("", []);
      ("on_button_0_pressed", [Raise "/home/pi/on_button_0_pressed"])],
     OSError).
Proof.
  intros press release fs es e.
  assert (Forall2 (fun evbuf e => Struct.unpack_IhBB evbuf = Some e)
            [press] es) as Hd
    by (constructor; [reflexivity | constructor]).
  assert (crashed (run "/home/pi" fs tracker_init es).2 = false) as Hc
    by (vm_compute; reflexivity).
  assert (Struct.unpack_IhBB release = Some e) as He by reflexivity.
  assert ((track (final tracker_init es) e).2 <> "") as Ha
    by (vm_compute; discriminate).
  split; [done|].
  exact (is_file_error_stops "/home/pi" fs tracker_init [press] es release e
           [press; release] Hd Hc He Ha eq_refl).
Defined.
